(** * picamtracker: the motion analyser

    A shallow embedding of [src/picamtracker/MotionAnalyser.py]: the
    threshold mask over the motion-block grid, the rectangle merger
    ([intersects], [removeIntersections]), the noise filter of [analyse],
    the configuration setters and the debug sink.

    Python integers are [Z], list positions are [nat], the motion vectors
    are 8-bit signed with their wrap-around written out, [sad] is 16-bit
    unsigned.  Numbers that numpy computes in float64 (mean, variance, the
    movement cap) are exact rationals here, with a separate value for nan.
    Exceptions are a result type.  The OpenCV calls are parameters. *)

From Stdlib Require Import ZArith QArith Lia.
From stdpp Require Import base list gmap strings.

Open Scope Z_scope.

(** ** Exceptions *)

Inductive exn := IndexError | IOError | KeyError.

Inductive res (A : Type) : Type :=
  | Ok (a : A)
  | Raise (e : exn).
Arguments Ok {A} a.
Arguments Raise {A} e.

Definition bind {A B : Type} (m : res A) (f : A -> res B) : res B :=
  match m with
  | Ok a => f a
  | Raise e => Raise e
  end.

Notation "x <-- m ;; k" := (bind m (fun x => k))
  (at level 100, m at next level, right associativity).

(** ** Rectangles *)

(** A rectangle [x, y, w, h] in grid-cell units. *)
Record Rect := mkRect { rx : Z; ry : Z; rw : Z; rh : Z }.

Definition area (r : Rect) : Z := rw r * rh r.

Module Merger.

(** [extend = 3] in [intersects]. *)
Definition extend : Z := 3.

(** [xn >= xo and xn+wn <= xo+wo and yn >= yo and yn+hn <= yo+ho] *)
Definition new_in_old (o n : Rect) : bool :=
  (rx o <=? rx n) && (rx n + rw n <=? rx o + rw o) &&
  (ry o <=? ry n) && (ry n + rh n <=? ry o + rh o).

(** [xo > xn and xo+wo <= xn+wn and yo > yn and yo+ho <= yn+hn] *)
Definition old_in_new (o n : Rect) : bool :=
  (rx n <? rx o) && (rx o + rw o <=? rx n + rw n) &&
  (ry n <? ry o) && (ry o + rh o <=? ry n + rh n).

(** The bounds of the new rectangle extended by [extend] on every side and
    clamped to the grid: [(x1nn, y1nn, x2nn, y2nn)]. *)
Definition x1nn (n : Rect) : Z := Z.max (rx n - extend) 0.
Definition y1nn (n : Rect) : Z := Z.max (ry n - extend) 0.
Definition x2nn (cols : Z) (n : Rect) : Z := Z.min (rx n + rw n + extend) cols.
Definition y2nn (rows : Z) (n : Rect) : Z := Z.min (ry n + rh n + extend) rows.

(** The value of [xint and yint] after the partial-intersection test. *)
Definition joins (rows cols : Z) (o n : Rect) : bool :=
  if (x1nn n <? rx o) && (rx o + rw o <=? x2nn cols n) &&
     (y1nn n <? ry o) && (ry o + rh o <=? y2nn rows n)
  then true
  else
    let xmin := Z.min (rx o) (x1nn n) in
    let xmax := Z.max (rx o + rw o) (x2nn cols n) in
    let xint := xmax - xmin <=? rw o + rw n + 2 * extend in
    let ymin := Z.min (ry o) (y1nn n) in
    let ymax := Z.max (ry o + rh o) (y2nn rows n) in
    let yint := ymax - ymin <=? rh o + rh n + 2 * extend in
    xint && yint.

(** The union of the 'original' boxes. *)
Definition union_box (o n : Rect) : Rect :=
  let xmin := Z.min (rx o) (rx n) in
  let xmax := Z.max (rx o + rw o) (rx n + rw n) in
  let ymin := Z.min (ry o) (ry n) in
  let ymax := Z.max (ry o + rh o) (ry n + rh n) in
  mkRect xmin ymin (xmax - xmin) (ymax - ymin).

(** The variables of the loop in [intersects]: the list, which the loop
    mutates while it iterates over it, the counter [i] and the flag
    [append]. *)
Record scan := mkScan {
  sc_rects : list Rect;
  sc_i : nat;
  sc_append : bool
}.

(** How one pass through the loop body ends: [return rects], or on to the
    next element. *)
Inductive flow :=
  | Return (rects : list Rect)
  | Continue (s : scan).

(** [rects.pop(i)]; raises out of range. *)
Definition pop (i : nat) (rects : list Rect) : res (list Rect) :=
  if decide (i < length rects)%nat then Ok (delete i rects) else Raise IndexError.

(** [rects[i] = r]; raises out of range. *)
Definition assign (i : nat) (r : Rect) (rects : list Rect) : res (list Rect) :=
  if decide (i < length rects)%nat then Ok (<[i := r]> rects) else Raise IndexError.

(** The loop body for the element [o = (xo, yo, wo, ho)] just fetched. *)
Definition scan_body (rows cols : Z) (n o : Rect) (s : scan) : res flow :=
  if new_in_old o n then Ok (Return (sc_rects s))
  else if old_in_new o n then
    rects' <-- pop (sc_i s) (sc_rects s) ;;
    Ok (Continue (mkScan rects' (S (sc_i s)) false))
  else if joins rows cols o n then
    rects' <-- assign (sc_i s) (union_box o n) (sc_rects s) ;;
    Ok (Continue (mkScan rects' (S (sc_i s)) false))
  else Ok (Continue (mkScan (sc_rects s) (S (sc_i s)) (sc_append s))).

(** After the loop: [if append: rects.append([xn,yn,wn,hn])]. *)
Definition finish (n : Rect) (s : scan) : list Rect :=
  if sc_append s then sc_rects s ++ [n] else sc_rects s.

(** [for xo,yo,wo,ho in rects: ...]: the list iterator holds a position
    [k] of its own and fetches [rects[k]] from the list as it is at that
    moment; it stops when [k] is past the end.  The list never grows inside
    the loop, so [length rects] passes suffice ([scan_loop_fuel]). *)
Fixpoint scan_loop (fuel : nat) (rows cols : Z) (n : Rect) (k : nat) (s : scan)
  : res (list Rect) :=
  match fuel with
  | O => Ok (finish n s)
  | S fuel' =>
      match sc_rects s !! k with
      | None => Ok (finish n s)
      | Some o =>
          fl <-- scan_body rows cols n o s ;;
          match fl with
          | Return rects => Ok rects
          | Continue s' => scan_loop fuel' rows cols n (S k) s'
          end
      end
  end.

Definition intersects (rows cols : Z) (rects : list Rect) (n : Rect) : res (list Rect) :=
  scan_loop (length rects) rows cols n 0 (mkScan rects 0 true).

(** The same scan written over the part of the list already passed
    ([done]) and the part still ahead ([rest]); [intersects_merge_scan]
    shows that [intersects] computes it.  Popping the element at the
    iterator's position moves the following element under the position
    just left, so the iterator passes over it. *)
Fixpoint merge_scan (rows cols : Z) (n : Rect) (done rest : list Rect) (append : bool)
  : list Rect :=
  match rest with
  | [] => if append then done ++ [n] else done
  | o :: rest' =>
      if new_in_old o n then done ++ rest
      else if old_in_new o n then
        match rest' with
        | [] => done
        | p :: rest'' => merge_scan rows cols n (done ++ [p]) rest'' false
        end
      else if joins rows cols o n
      then merge_scan rows cols n (done ++ [union_box o n]) rest' false
      else merge_scan rows cols n (done ++ [o]) rest' append
  end.

(** [removeIntersections]: [boundingRect] is OpenCV's; a contour is
    whatever [findContours] hands over. *)
Section RemoveIntersections.
Context {Contour : Type} (boundingRect : Contour -> Rect).

Fixpoint removeIntersections_from (rows cols maxArea : Z)
    (contours : list Contour) (rects : list Rect) : res (list Rect) :=
  match contours with
  | [] => Ok rects
  | cnt :: contours' =>
      let r := boundingRect cnt in
      if maxArea <? rw r * rh r
      then removeIntersections_from rows cols maxArea contours' rects
      else if (0 <? length rects)%nat then
        rects' <-- intersects rows cols rects r ;;
        removeIntersections_from rows cols maxArea contours' rects'
      else removeIntersections_from rows cols maxArea contours' (rects ++ [r])
  end.

Definition removeIntersections (rows cols maxArea : Z) (contours : list Contour)
  : res (list Rect) :=
  removeIntersections_from rows cols maxArea contours [].
End RemoveIntersections.

End Merger.

(** ** The motion-block grid and the numpy operations used on it *)

(** One cell of the array [a]: picamera's [motion_dtype], with [x] and [y]
    signed 8-bit and [sad] unsigned 16-bit. *)
Record MotionBlock := mkBlock { mx : Z; my : Z; sad : Z }.

(** A two-dimensional array, [a[row][col]]. *)
Definition Grid (A : Type) : Type := list (list A).

Module Np.

(** Arithmetic on int8 arrays stays in int8 and wraps. *)
Definition wrap8 (z : Z) : Z := (z + 128) mod 256 - 128.
Definition abs8 (z : Z) : Z := wrap8 (Z.abs z).
Definition add8 (a b : Z) : Z := wrap8 (a + b).

(** [a['x']] and the like: one field of every cell. *)
Definition field {A B : Type} (f : A -> B) (a : Grid A) : Grid B := map (map f) a.

Definition map2 {A B C : Type} (f : A -> B -> C) (a : Grid A) (b : Grid B) : Grid C :=
  zip_with (zip_with f) a b.

Definition abs (a : Grid Z) : Grid Z := field abs8 a.
Definition add (a b : Grid Z) : Grid Z := map2 add8 a b.

(** [arr > c] and [arr < c] against a Python integer: exact comparisons. *)
Definition gt (a : Grid Z) (c : Z) : Grid bool := field (fun v => c <? v) a.
Definition lt (a : Grid Z) (c : Z) : Grid bool := field (fun v => v <? c) a.

(** [np.logical_and(x1, x2, out)]: the third positional parameter is the
    array the result is stored in.  Every cell of [out] is overwritten with
    [x1 and x2], and [out] is what the call returns. *)
Definition logical_and (x1 x2 out : Grid bool) : Grid bool :=
  map2 (fun _ v => v) out (map2 andb x1 x2).

Definition count_nonzero (g : Grid bool) : Z :=
  Z.of_nat (length (filter (fun b => b = true) (concat g))).

(** [g.astype(np.uint8) * 255] *)
Definition to_mask (g : Grid bool) : Grid Z :=
  field (fun b : bool => if b then 255 else 0) g.

(** [l[i]] with an integer: negative positions count from the end, out of
    range raises. *)
Definition index {A : Type} (l : list A) (i : Z) : res A :=
  let n := Z.of_nat (length l) in
  let j := if i <? 0 then i + n else i in
  if (0 <=? j) && (j <? n) then
    match l !! Z.to_nat j with
    | Some v => Ok v
    | None => Raise IndexError
    end
  else Raise IndexError.

(** [a[y, x]] *)
Definition index2 {A : Type} (a : Grid A) (y x : Z) : res A :=
  row <-- index a y ;; index row x.

(** A slice bound: negative bounds count from the end, all are clipped to
    the length. *)
Definition slice_bound (n i : Z) : Z :=
  if i <? 0 then Z.max (i + n) 0 else Z.min i n.

(** [l[lo:hi]] *)
Definition slice {A : Type} (l : list A) (lo hi : Z) : list A :=
  let n := Z.of_nat (length l) in
  let lo' := slice_bound n lo in
  let hi' := slice_bound n hi in
  take (Z.to_nat (hi' - lo')) (drop (Z.to_nat lo') l).

(** [a[y0:y1, x0:x1]] *)
Definition slice2 {A : Type} (a : Grid A) (y0 y1 x0 x1 : Z) : Grid A :=
  map (fun row => slice row x0 x1) (slice a y0 y1).

(** A float64 result: a rational, or nan. *)
Inductive npfloat := Fin (q : Q) | NaN.

Definition of_int (z : Z) : npfloat := Fin (inject_Z z).

Definition sumZ (l : list Z) : Z := foldr Z.add 0 l.
Definition sumQ (l : list Q) : Q := foldr Qplus 0%Q l.

(** [np.mean] over all cells; nan on an empty array.  The value is the
    exact quotient; numpy returns it rounded to float64. *)
Definition mean (l : list Z) : npfloat :=
  match l with
  | [] => NaN
  | _ => Fin (Qred (inject_Z (sumZ l) / inject_Z (Z.of_nat (length l))))
  end.

(** [ndarray.var()]: the mean of the squared deviations from the mean, as
    an exact rational.  numpy rounds at every step, so its float64 result
    can differ from this value in the last places, and the comparison with
    a bound in [reduce] can then come out differently when the exact value
    lies at the bound. *)
Definition var (l : list Z) : npfloat :=
  match l with
  | [] => NaN
  | _ =>
      let n := inject_Z (Z.of_nat (length l)) in
      let mu := (inject_Z (sumZ l) / n)%Q in
      Fin (Qred (sumQ (map (fun v => ((inject_Z v - mu) * (inject_Z v - mu))%Q) l) / n))
  end.

(** [x < c] for a float and a Python integer; false on nan. *)
Definition lt_int (x : npfloat) (c : Z) : bool :=
  match x with
  | Fin q => negb (Qle_bool (inject_Z c) q)
  | NaN => false
  end.

End Np.

(** ** The analyser object *)

(** The attributes of [MotionAnalyser] that the analysis reads or writes.
    [rows] and [cols] come from the base class [PiMotionAnalysis]; [config]
    is [config.conf] when a configuration object is attached; [fobj] is
    the open debug file with what has been written to it.  The attributes
    that only feed the display ([big], [show], [xcross], [ycross]) or the
    timing ([t0]) are left out. *)
Record Analyser := mkAnalyser {
  rows : Z;
  cols : Z;
  config : option (gmap string Z);
  minArea : Z;
  maxArea : Z;
  sadThreshold : Z;
  started : bool;
  vmin : Z;
  vmax : Z;
  frame : Z;
  processed_frames : Z;
  maxMovements : Q;
  debug : bool;
  fobj : option (list (Grid MotionBlock))
}.

Definition with_config (v : option (gmap string Z)) (st : Analyser) : Analyser :=
  mkAnalyser (rows st) (cols st) v (minArea st) (maxArea st) (sadThreshold st) (started st) (vmin st) (vmax st) (frame st) (processed_frames st) (maxMovements st) (debug st) (fobj st).

Definition with_minArea (v : Z) (st : Analyser) : Analyser :=
  mkAnalyser (rows st) (cols st) (config st) v (maxArea st) (sadThreshold st) (started st) (vmin st) (vmax st) (frame st) (processed_frames st) (maxMovements st) (debug st) (fobj st).

Definition with_maxArea (v : Z) (st : Analyser) : Analyser :=
  mkAnalyser (rows st) (cols st) (config st) (minArea st) v (sadThreshold st) (started st) (vmin st) (vmax st) (frame st) (processed_frames st) (maxMovements st) (debug st) (fobj st).

Definition with_sadThreshold (v : Z) (st : Analyser) : Analyser :=
  mkAnalyser (rows st) (cols st) (config st) (minArea st) (maxArea st) v (started st) (vmin st) (vmax st) (frame st) (processed_frames st) (maxMovements st) (debug st) (fobj st).

Definition with_started (v : bool) (st : Analyser) : Analyser :=
  mkAnalyser (rows st) (cols st) (config st) (minArea st) (maxArea st) (sadThreshold st) v (vmin st) (vmax st) (frame st) (processed_frames st) (maxMovements st) (debug st) (fobj st).

Definition with_vmin (v : Z) (st : Analyser) : Analyser :=
  mkAnalyser (rows st) (cols st) (config st) (minArea st) (maxArea st) (sadThreshold st) (started st) v (vmax st) (frame st) (processed_frames st) (maxMovements st) (debug st) (fobj st).

Definition with_vmax (v : Z) (st : Analyser) : Analyser :=
  mkAnalyser (rows st) (cols st) (config st) (minArea st) (maxArea st) (sadThreshold st) (started st) (vmin st) v (frame st) (processed_frames st) (maxMovements st) (debug st) (fobj st).

Definition with_frame (v : Z) (st : Analyser) : Analyser :=
  mkAnalyser (rows st) (cols st) (config st) (minArea st) (maxArea st) (sadThreshold st) (started st) (vmin st) (vmax st) v (processed_frames st) (maxMovements st) (debug st) (fobj st).

Definition with_processed_frames (v : Z) (st : Analyser) : Analyser :=
  mkAnalyser (rows st) (cols st) (config st) (minArea st) (maxArea st) (sadThreshold st) (started st) (vmin st) (vmax st) (frame st) v (maxMovements st) (debug st) (fobj st).

Definition with_maxMovements (v : Q) (st : Analyser) : Analyser :=
  mkAnalyser (rows st) (cols st) (config st) (minArea st) (maxArea st) (sadThreshold st) (started st) (vmin st) (vmax st) (frame st) (processed_frames st) v (debug st) (fobj st).

Definition with_debug (v : bool) (st : Analyser) : Analyser :=
  mkAnalyser (rows st) (cols st) (config st) (minArea st) (maxArea st) (sadThreshold st) (started st) (vmin st) (vmax st) (frame st) (processed_frames st) (maxMovements st) v (fobj st).

Definition with_fobj (v : option (list (Grid MotionBlock))) (st : Analyser) : Analyser :=
  mkAnalyser (rows st) (cols st) (config st) (minArea st) (maxArea st) (sadThreshold st) (started st) (vmin st) (vmax st) (frame st) (processed_frames st) (maxMovements st) (debug st) v.

(** ** Construction *)

(** [config.conf[key]] *)
Definition conf_get (conf : gmap string Z) (key : string) : res Z :=
  match conf !! key with
  | Some v => Ok v
  | None => Raise KeyError
  end.

(** [__init__]: the thresholds come from the configuration, [minArea] is
    1, the cap is 100 until the first frame. *)
Definition init (rows cols : Z) (conf : gmap string Z) : res Analyser :=
  maxArea <-- conf_get conf "maxArea" ;;
  sadThreshold <-- conf_get conf "sadThreshold" ;;
  _ <-- conf_get conf "xCross" ;;
  _ <-- conf_get conf "yCross" ;;
  vmin <-- conf_get conf "vMin" ;;
  vmax <-- conf_get conf "vMax" ;;
  debug <-- conf_get conf "debug" ;;
  Ok (mkAnalyser rows cols (Some conf) 1 maxArea sadThreshold false vmin vmax
                 0 0 (100 # 1) (negb (debug =? 0)) None).

(** ** The configuration callbacks *)

(** [if self.config: self.config.conf[key] = value] *)
Definition conf_store (key : string) (value : Z) (st : Analyser) : Analyser :=
  match config st with
  | Some conf => with_config (Some (<[key := value]> conf)) st
  | None => st
  end.

Definition set_debug (value : bool) (st : Analyser) : Analyser :=
  if value then with_debug true st
  else with_fobj None (with_debug false st).

Definition set_vMax (value : Z) (st : Analyser) : Analyser :=
  if vmin st <? value then conf_store "vMax" value (with_vmax value st)
  else st.

Definition set_vMin (value : Z) (st : Analyser) : Analyser :=
  let value := if value <? 1 then 1 else value in
  conf_store "vMin" value (with_vmin value st).

Definition set_maxArea (value : Z) (st : Analyser) : Analyser :=
  if minArea st <? value then conf_store "maxArea" value (with_maxArea value st)
  else st.

Definition set_minArea (value : Z) (st : Analyser) : Analyser :=
  let value := if value <? 1 then 1 else value in
  conf_store "minArea" value (with_minArea value st).

Definition set_sadThreshold (value : Z) (st : Analyser) : Analyser :=
  if (0 <=? value) && (value <? 16384)
  then conf_store "sadThreshold" value (with_sadThreshold value st)
  else st.

(** The five threshold callbacks under one name. *)
Inductive setter := SetVMin | SetVMax | SetMinArea | SetMaxArea | SetSadThreshold.

Definition run_setter (s : setter) : Z -> Analyser -> Analyser :=
  match s with
  | SetVMin => set_vMin
  | SetVMax => set_vMax
  | SetMinArea => set_minArea
  | SetMaxArea => set_maxArea
  | SetSadThreshold => set_sadThreshold
  end.

(** The attribute a callback is there to set. *)
Definition threshold_of (s : setter) (st : Analyser) : Z :=
  match s with
  | SetVMin => vmin st
  | SetVMax => vmax st
  | SetMinArea => minArea st
  | SetMaxArea => maxArea st
  | SetSadThreshold => sadThreshold st
  end.

(** ** The debug sink *)

(** [debug_out]: open the file on first use, then write the array.
    Whether [open] succeeds is the environment's: [sink_opens].  A failed
    [open] is caught and raised again. *)
Definition debug_out (sink_opens : bool) (a : Grid MotionBlock) (st : Analyser)
  : res Analyser :=
  st' <-- match fobj st with
          | None => if sink_opens then Ok (with_fobj (Some []) st) else Raise IOError
          | Some _ => Ok st
          end ;;
  Ok (with_fobj (option_map (fun written => written ++ [a]) (fobj st')) st').

(** ** The analysis of one frame *)

(** An entry of [new_points]: [[[x0,y0,w,h],[vx,vy]]]. *)
Definition Point : Type := Rect * (Np.npfloat * Np.npfloat).

(** What the tracker is called with. *)
Inductive TrackerCall :=
  | SetupSizes (rows cols : Z)
  | UpdateTracks (frame : Z) (new_points : list Point).

(** The variables of the loop over the merged rectangles. *)
Record Tally := mkTally {
  new_points : list Point;
  rejects : Z;
  num_small : Z;
  num_large : Z
}.

Definition reject (t : Tally) : Tally :=
  mkTally (new_points t) (rejects t + 1) (num_small t) (num_large t).

(** [w < 2 and h < 2] *)
Definition single_cell (r : Rect) : bool := (rw r <? 2) && (rh r <? 2).

(** The cells of [a[y0:y1, x0:x1]]. *)
Definition cells_of (a : Grid MotionBlock) (r : Rect) : list MotionBlock :=
  concat (Np.slice2 a (ry r) (ry r + rh r) (rx r) (rx r + rw r)).

(** The body of [for x0,y0,w,h in rects]. *)
Definition reduce (st : Analyser) (a : Grid MotionBlock) (r : Rect) (t : Tally)
  : res Tally :=
  let area := rw r * rh r in
  if maxArea st <? area then Ok (reject t)
  else if single_cell r then
    cell <-- Np.index2 a (ry r) (rx r) ;;
    let vx := Np.of_int (mx cell) in
    let vy := Np.of_int (my cell) in
    let sad_var := sad cell in
    let rejects' := if sad_var <? sadThreshold st then rejects t + 1 else rejects t in
    Ok (mkTally (new_points t ++ [(r, (vx, vy))]) rejects'
                (num_small t + 1) (num_large t))
  else
    let sad_var := Np.var (map sad (cells_of a r)) in
    if Np.lt_int sad_var (2 * sadThreshold st) then Ok (reject t)
    else
      let vx := Np.mean (map mx (cells_of a r)) in
      let vy := Np.mean (map my (cells_of a r)) in
      Ok (mkTally (new_points t ++ [(r, (vx, vy))]) (rejects t)
                  (num_small t) (num_large t + 1)).

Fixpoint reduce_all (st : Analyser) (a : Grid MotionBlock) (rects : list Rect)
    (t : Tally) : res Tally :=
  match rects with
  | [] => Ok t
  | r :: rects' => t' <-- reduce st a r t ;; reduce_all st a rects' t'
  end.

(** [mag = np.abs(a['x']) + np.abs(a['y'])] *)
Definition mag (a : Grid MotionBlock) : Grid Z :=
  Np.add (Np.abs (Np.field mx a)) (Np.abs (Np.field my a)).

(** [has_movement = np.logical_and(mag > self.vmin, mag < self.vmax,
                                   a['sad'] > self.sadThreshold)] *)
Definition has_movement (st : Analyser) (a : Grid MotionBlock) : Grid bool :=
  Np.logical_and (Np.gt (mag a) (vmin st)) (Np.lt (mag a) (vmax st))
                 (Np.gt (Np.field sad a) (sadThreshold st)).

(** [self.rows * self.cols / 8], a true division: the quotient by 8 is
    exact in float64 as long as the product is. *)
Definition movement_cap (st : Analyser) : Q := Qred (rows st * cols st # 8).

(** Whether [moving_elements > self.maxMovements]. *)
Definition too_many (moving_elements : Z) (st : Analyser) : bool :=
  negb (Qle_bool (inject_Z moving_elements) (maxMovements st)).

(** What one call of [analyse] leaves behind: the object, the calls made
    to the tracker, and the exception if one came out. *)
Record Outcome := mkOutcome {
  out_state : Analyser;
  out_calls : list TrackerCall;
  out_raised : option exn
}.

Section Analyse.
(** The OpenCV calls: [findContours(mask, RETR_EXTERNAL, CHAIN_APPROX_SIMPLE)]
    and [boundingRect]. *)
Context {Contour : Type}.
Context (findContours : Grid Z -> list Contour).
Context (boundingRect : Contour -> Rect).

(** The part of [analyse] after the calibration: mask, movement guard,
    contours, merged rectangles, vectors.  [None] stands for the early
    [return], which leaves out the call of the tracker. *)
Definition regions (st : Analyser) (a : Grid MotionBlock) : res (option (list Point)) :=
  let moving_elements := Np.count_nonzero (has_movement st a) in
  if too_many moving_elements st then Ok None
  else
    let mask := Np.to_mask (has_movement st a) in
    let contours := findContours mask in
    rects <-- Merger.removeIntersections boundingRect
                (rows st) (cols st) (maxArea st) contours ;;
    t <-- reduce_all st a rects (mkTally [] 0 0 0) ;;
    Ok (Some (new_points t)).

(** [analyse(a)] on the frame with index [frame_index]. *)
Definition analyse (sink_opens : bool) (frame_index : Z) (a : Grid MotionBlock)
    (st : Analyser) : Outcome :=
  let st := with_processed_frames (processed_frames st + 1)
              (with_frame frame_index st) in
  match (if debug st then debug_out sink_opens a st else Ok st) with
  | Raise e => mkOutcome st [] (Some e)
  | Ok st =>
      if negb (started st) then
        mkOutcome (with_started true (with_maxMovements (movement_cap st) st))
                  [SetupSizes (rows st) (cols st - 1)] None
      else
        match regions st a with
        | Raise e => mkOutcome st [] (Some e)
        | Ok None => mkOutcome st [] None
        | Ok (Some points) => mkOutcome st [UpdateTracks (frame st) points] None
        end
  end.
End Analyse.

(** The merged rectangles of a frame: [rects] in [analyse]. *)
Definition merged {Contour : Type} (findContours : Grid Z -> list Contour)
    (boundingRect : Contour -> Rect) (st : Analyser) (a : Grid MotionBlock)
  : res (list Rect) :=
  Merger.removeIntersections boundingRect (rows st) (cols st) (maxArea st)
    (findContours (Np.to_mask (has_movement st a))).

(** ** Vocabulary of the properties *)

(** The array has the shape [(rows, cols)]. *)
Definition shaped {A : Type} (rows cols : Z) (a : Grid A) : Prop :=
  Z.of_nat (length a) = rows /\ Forall (fun row => Z.of_nat (length row) = cols) a.

(** A rectangle has positive width and height, as every [boundingRect]. *)
Definition well_formed (r : Rect) : Prop := 0 < rw r /\ 0 < rh r.

(** A rectangle lies inside the grid. *)
Definition in_grid (rows cols : Z) (r : Rect) : Prop :=
  0 <= rx r /\ 0 <= ry r /\ rx r + rw r <= cols /\ ry r + rh r <= rows.

(** [a] is fully contained in [b]; edges may coincide. *)
Definition contained (a b : Rect) : Prop :=
  rx b <= rx a /\ rx a + rw a <= rx b + rw b /\
  ry b <= ry a /\ ry a + rh a <= ry b + rh b.

(** The new rectangle, extended by the margin and clamped to the grid,
    overlaps the old one on both axes; touching counts. *)
Definition overlaps (rows cols : Z) (o n : Rect) : Prop :=
  rx o <= Merger.x2nn cols n /\ Merger.x1nn n <= rx o + rw o /\
  ry o <= Merger.y2nn rows n /\ Merger.y1nn n <= ry o + rh o.

(** How the loop of [intersects] ends: by [return rects] inside the loop,
    or by running out of entries, with the variables as they are before
    the final [if append]. *)
Inductive loop_end :=
  | Returned (rects : list Rect)
  | Exhausted (s : Merger.scan).

(** The loop of [intersects] without what follows it: [Merger.scan_loop]
    is this loop followed by [ending] ([scan_loop_ending]). *)
Fixpoint scan_run (fuel : nat) (rows cols : Z) (n : Rect) (k : nat) (s : Merger.scan)
  : res loop_end :=
  match fuel with
  | O => Ok (Exhausted s)
  | S fuel' =>
      match Merger.sc_rects s !! k with
      | None => Ok (Exhausted s)
      | Some o =>
          fl <-- Merger.scan_body rows cols n o s ;;
          match fl with
          | Merger.Return rects => Ok (Returned rects)
          | Merger.Continue s' => scan_run fuel' rows cols n (S k) s'
          end
      end
  end.

(** What [intersects] returns for each way the loop ends. *)
Definition ending (n : Rect) (e : loop_end) : list Rect :=
  match e with
  | Returned rects => rects
  | Exhausted s => Merger.finish n s
  end.

(** Whether [rects.append([xn,yn,wn,hn])] is executed: only after the
    loop, and only with [append] still set. *)
Definition appends_new (e : loop_end) : bool :=
  match e with
  | Returned _ => false
  | Exhausted s => Merger.sc_append s
  end.

(** A property of rectangles that the union of two boxes keeps. *)
Definition union_closed (P : Rect -> Prop) : Prop :=
  forall o n, P o -> P n -> P (Merger.union_box o n).

(** The magnitude the mask sees for one cell, and the test the mask
    applies to it ([has_movement_cells]). *)
Definition cell_mag (b : MotionBlock) : Z :=
  Np.add8 (Np.abs8 (mx b)) (Np.abs8 (my b)).
Definition moving (st : Analyser) (b : MotionBlock) : bool :=
  (vmin st <? cell_mag b) && (cell_mag b <? vmax st).

(** The entry, if any, that the loop body appends for a rectangle. *)
Definition emitted (st : Analyser) (a : Grid MotionBlock) (r : Rect) : option Point :=
  match reduce st a r (mkTally [] 0 0 0) with
  | Ok t => head (new_points t)
  | Raise _ => None
  end.

(** Two states of the object agree on everything the analysis of a frame
    reads after the calibration. *)
Definition same_thresholds (st st' : Analyser) : Prop :=
  rows st' = rows st /\ cols st' = cols st /\
  maxArea st' = maxArea st /\ sadThreshold st' = sadThreshold st /\
  vmin st' = vmin st /\ vmax st' = vmax st /\
  maxMovements st' = maxMovements st.

(** Two entries of a list that the merge rules would still bring
    together: the later one, taken as the incoming rectangle, is contained
    in the earlier one or joins it. *)
Definition unsettled (rows cols : Z) (rects : list Rect) : Prop :=
  exists (i j : nat) (o n : Rect),
    (i < j)%nat /\ rects !! i = Some o /\ rects !! j = Some n /\
    (Merger.new_in_old o n = true \/ Merger.old_in_new o n = true \/
     Merger.joins rows cols o n = true).

(** The value breaks the invariant that the configuration surface states
    for the callback: vMin >= 1, vMax > vMin, minArea >= 1,
    maxArea > minArea, sadThreshold in 0..16383. *)
Definition violates (s : setter) (value : Z) (st : Analyser) : Prop :=
  match s with
  | SetVMin => value < 1
  | SetVMax => value <= vmin st
  | SetMinArea => value < 1
  | SetMaxArea => value <= minArea st
  | SetSadThreshold => value < 0 \/ 16383 < value
  end.

(** The states an analyser goes through: created uncalibrated, then any
    sequence of frames and callbacks. *)
Inductive reachable {Contour : Type} (findContours : Grid Z -> list Contour)
    (boundingRect : Contour -> Rect) : Analyser -> Prop :=
  | reach_new st :
      started st = false -> reachable findContours boundingRect st
  | reach_frame st sink_opens frame_index a :
      reachable findContours boundingRect st ->
      reachable findContours boundingRect
        (out_state (analyse findContours boundingRect sink_opens frame_index a st))
  | reach_setter st s value :
      reachable findContours boundingRect st ->
      reachable findContours boundingRect (run_setter s value st)
  | reach_debug st value :
      reachable findContours boundingRect st ->
      reachable findContours boundingRect (set_debug value st).

(** ** Vocabulary of the further properties *)

(** The extension of the new rectangle is not clamped by the grid, and the
    old rectangle lies more than the margin away from the new one on some
    axis. *)
Definition clear_of (rows cols : Z) (o n : Rect) : Prop :=
  (Merger.extend <= rx n /\ Merger.extend <= ry n /\
   rx n + rw n + Merger.extend <= cols /\ ry n + rh n + Merger.extend <= rows) /\
  (rx n + rw n + Merger.extend < rx o \/ rx o + rw o < rx n - Merger.extend \/
   ry n + rh n + Merger.extend < ry o \/ ry o + rh o < ry n - Merger.extend).

(** The key of [config.conf] that a callback writes. *)
Definition key_of (s : setter) : string :=
  match s with
  | SetVMin => "vMin"
  | SetVMax => "vMax"
  | SetMinArea => "minArea"
  | SetMaxArea => "maxArea"
  | SetSadThreshold => "sadThreshold"
  end.

(** The keys that [__init__] reads. *)
Definition init_keys : list string :=
  ["maxArea"; "sadThreshold"; "xCross"; "yCross"; "vMin"; "vMax"; "debug"].

(** Each rectangle of [boxes], taken in order as the incoming one, is
    clear of those in [earlier] and of those before it in [boxes]. *)
Fixpoint separate (rows cols : Z) (earlier boxes : list Rect) : Prop :=
  match boxes with
  | [] => True
  | n :: boxes' =>
      Forall (fun o => clear_of rows cols o n) earlier /\
      separate rows cols (earlier ++ [n]) boxes'
  end.

(** Two states of the object that a frame cannot tell apart: the same
    thresholds and cap, the same calibration and debug flags, and a debug
    file open in both or in neither. *)
Definition same_run (st st' : Analyser) : Prop :=
  same_thresholds st st' /\ started st' = started st /\ debug st' = debug st /\
  (fobj st' = None <-> fobj st = None).

(** ** Frames and rectangle lists used as examples *)

Module Examples.

(** A stand-in for the two OpenCV calls on masks whose moving cells do not
    touch each other: every such cell is a contour of its own with the
    1x1 bounding rectangle, in raster order. *)
Definition cell_boxes (mask : Grid Z) : list Rect :=
  concat (imap (fun (y : nat) (row : list Z) =>
    omap (fun c : option Rect => c)
      (imap (fun (x : nat) (v : Z) =>
         if v =? 0 then None else Some (mkRect (Z.of_nat x) (Z.of_nat y) 1 1)) row))
    mask).

Definition blank (rows cols : nat) : Grid MotionBlock :=
  replicate rows (replicate cols (mkBlock 0 0 0)).

(** [a[y, x] = b] *)
Definition put (y x : nat) (b : MotionBlock) (a : Grid MotionBlock) : Grid MotionBlock :=
  alter (fun row => <[x := b]> row) y a.

(** A calibrated analyser on a 30 x 40 grid: vMin 2, vMax 40,
    sadThreshold 60, maxArea 40. *)
Definition active : Analyser :=
  mkAnalyser 30 40 None 1 40 60 true 2 40 7 3 (150 # 1) false None.

(** One moving cell at row 20, column 20, with [sad] 0 like every other
    cell of the frame. *)
Definition lone_cell_no_sad : Grid MotionBlock :=
  put 20 20 (mkBlock (-2) (-2) 0) (blank 30 40).

(** The same cell with [sad] 90 and with [sad] 10. *)
Definition lone_cell_90 : Grid MotionBlock :=
  put 20 20 (mkBlock (-2) (-2) 90) (blank 30 40).
Definition lone_cell_10 : Grid MotionBlock :=
  put 20 20 (mkBlock (-2) (-2) 10) (blank 30 40).

(** A frame of 4 x 4 cells with three moving cells. *)
Definition three_cells : Grid MotionBlock :=
  put 0 0 (mkBlock 3 0 80) (put 0 2 (mkBlock 3 0 80) (put 2 0 (mkBlock 3 0 80) (blank 4 4))).

(** Two moving cells one column apart, [sad] 80 on the three cells they
    span. *)
Definition flat_pair : Grid MotionBlock :=
  put 5 5 (mkBlock 3 0 80) (put 5 6 (mkBlock 0 0 80) (put 5 7 (mkBlock 4 1 80) (blank 30 40))).
(** The same with unequal [sad]. *)
Definition rough_pair : Grid MotionBlock :=
  put 5 5 (mkBlock 3 0 80) (put 5 7 (mkBlock 4 1 200) (blank 30 40)).

(** The same analyser with sadThreshold 0, and with the debug flag set (no
    file open yet). *)
Definition no_threshold : Analyser := with_sadThreshold 0 active.
Definition debugging : Analyser := with_debug true active.

(** An analyser as created, on a 4 x 4 grid, and the same after its first
    frame. *)
Definition fresh : Analyser :=
  mkAnalyser 4 4 None 1 40 60 false 2 40 0 0 (100 # 1) false None.
Definition calibrated : Analyser :=
  out_state (analyse cell_boxes id false 1 (blank 4 4) fresh).

(** An analyser with vMin 5. *)
Definition slow : Analyser := with_vmin 5 active.

(** Bounding rectangles, in the order the contours come. *)
Definition inner : Rect := mkRect 5 5 1 1.
Definition outer : Rect := mkRect 3 3 5 5.
Definition far : Rect := mkRect 20 20 1 1.
Definition beside : Rect := mkRect 7 5 1 1.
Definition bridge : list Rect := [mkRect 5 0 1 1; mkRect 0 8 1 1; mkRect 0 0 7 4].
Definition passed_over : list Rect :=
  [mkRect 10 10 1 1; mkRect 15 10 1 1; mkRect 5 10 1 1; mkRect 9 9 3 3].

(** Four moving cells, none touching another, as 1 x 1 contours: the
    first three, the two rectangles they are merged into, and the
    fourth. *)
Definition three_first : list Rect :=
  [mkRect 17 13 1 1; mkRect 12 16 1 1; mkRect 14 16 1 1].
Definition upper : Rect := mkRect 14 13 4 4.
Definition lower : Rect := mkRect 12 16 3 1.
Definition fourth : Rect := mkRect 17 16 1 1.

(** A single cell, a cell five columns to its right and one row up, and
    the box of a contour of 5 x 5 cells that runs around the first cell
    without touching it. *)
Definition enclosed_cell : Rect := mkRect 10 11 1 1.
Definition cell_nearby : Rect := mkRect 15 10 1 1.
Definition enclosing : Rect := mkRect 8 8 5 5.

End Examples.

(** ** Further examples *)

Module MoreExamples.
Import Examples.

(** Three rectangles far from each other and from the border. *)
Definition scattered : list Rect :=
  [mkRect 10 10 1 1; mkRect 20 10 2 2; mkRect 15 20 1 1].

(** A rectangle in the top left corner and one five cells to its right,
    and the same pair turned by a quarter. *)
Definition at_border : Rect := mkRect 0 0 1 1.
Definition five_right : Rect := mkRect 6 0 1 1.
Definition five_below : Rect := mkRect 0 6 1 1.

(** A frame of 4 x 4 cells with two moving cells: an eighth of the grid. *)
Definition two_cells : Grid MotionBlock :=
  put 0 0 (mkBlock 3 0 80) (put 2 2 (mkBlock 3 0 80) (blank 4 4)).

(** A cell whose vector is too long for a signed byte once summed. *)
Definition fast_block : MotionBlock := mkBlock 100 100 500.

(** The debugging analyser with one frame already in its file. *)
Definition recording : Analyser := with_fobj (Some [lone_cell_10]) debugging.

(** A configuration with the seven keys, and one without [yCross]. *)
Definition full_conf : gmap string Z :=
  <["maxArea" := 40]> (<["sadThreshold" := 60]> (<["xCross" := 20]>
  (<["yCross" := 15]> (<["vMin" := 2]> (<["vMax" := 40]> (<["debug" := 0]> ∅)))))).
Definition short_conf : gmap string Z := delete "yCross" full_conf.

End MoreExamples.

(** * Properties *)

(** ** The merger *)

Module MergerFacts.
Import Merger.

Lemma insert_middle (done rest : list Rect) (o u : Rect) :
  <[length done := u]> (done ++ o :: rest) = (done ++ [u]) ++ rest.
Proof.
  rewrite insert_app_r_alt; [|lia].
  rewrite Nat.sub_diag. simpl. by rewrite <- app_assoc.
Qed.

Lemma pop_middle (done rest : list Rect) (o : Rect) :
  pop (length done) (done ++ o :: rest) = Ok (done ++ rest).
Proof.
  unfold pop. rewrite decide_True.
  - by rewrite delete_middle.
  - rewrite length_app. simpl. lia.
Qed.

Lemma assign_middle (done rest : list Rect) (o u : Rect) :
  assign (length done) u (done ++ o :: rest) = Ok ((done ++ [u]) ++ rest).
Proof.
  unfold assign. rewrite decide_True.
  - by rewrite insert_middle.
  - rewrite length_app. simpl. lia.
Qed.

(** The loop, started at the end of [done] with [rest] still ahead and fuel
    for all of [rest], computes [merge_scan]; [pop] and the assignment never
    raise, since [i] is the position of the entry just fetched. *)
Lemma scan_loop_merge_scan rows cols n fuel :
  forall (done rest : list Rect) (append : bool),
    (length rest <= fuel)%nat ->
    scan_loop fuel rows cols n (length done)
      (mkScan (done ++ rest) (length done) append)
    = Ok (merge_scan rows cols n done rest append).
Proof.
  induction fuel as [|fuel IH]; intros done rest append Hlen.
  - destruct rest; [|simpl in Hlen; lia].
    simpl. unfold finish. simpl. rewrite app_nil_r. by destruct append.
  - destruct rest as [|o rest'].
    + simpl. rewrite app_nil_r, lookup_ge_None_2 by lia.
      unfold finish. simpl. by destruct append.
    + cbn [scan_loop sc_rects]. rewrite list_lookup_middle by done.
      unfold scan_body. cbn [sc_rects sc_i sc_append merge_scan].
      destruct (new_in_old o n); [done|].
      destruct (old_in_new o n).
      * rewrite pop_middle. cbn [bind].
        destruct rest' as [|p rest''].
        -- destruct fuel; simpl; unfold finish; simpl.
           ++ by rewrite app_nil_r.
           ++ rewrite app_nil_r, lookup_ge_None_2 by lia. done.
        -- replace (done ++ p :: rest'') with ((done ++ [p]) ++ rest'')
             by (by rewrite <- app_assoc).
           replace (S (length done)) with (length (done ++ [p]))
             by (rewrite length_app; simpl; lia).
           apply IH. simpl in Hlen. lia.
      * destruct (joins rows cols o n).
        -- rewrite assign_middle. cbn [bind].
           replace (S (length done)) with (length (done ++ [union_box o n]))
             by (rewrite length_app; simpl; lia).
           apply IH. simpl in Hlen. lia.
        -- cbn [bind].
           replace (done ++ o :: rest') with ((done ++ [o]) ++ rest')
             by (by rewrite <- app_assoc).
           replace (S (length done)) with (length (done ++ [o]))
             by (rewrite length_app; simpl; lia).
           apply IH. simpl in Hlen. lia.
Qed.

(** [intersects] always returns, and returns the functional scan. *)
Lemma intersects_merge_scan rows cols rects n :
  intersects rows cols rects n = Ok (merge_scan rows cols n [] rects true).
Proof. unfold intersects. by apply (scan_loop_merge_scan rows cols n _ [] rects true). Qed.

(** More passes than the list is long change nothing: the loop has ended
    by running out of entries. *)
Lemma scan_loop_fuel rows cols rects n fuel :
  (length rects <= fuel)%nat ->
  scan_loop fuel rows cols n 0 (mkScan rects 0 true) = intersects rows cols rects n.
Proof.
  intros H. rewrite intersects_merge_scan.
  by apply (scan_loop_merge_scan rows cols n fuel [] rects true).
Qed.

(** Induction along the scan: the step goes to the tail, or over the
    next element to the tail's tail. *)
Lemma scan_ind (P : list Rect -> Prop) :
  P [] ->
  (forall o rest, P rest -> (forall p rest', rest = p :: rest' -> P rest') -> P (o :: rest)) ->
  forall l, P l.
Proof.
  intros Hnil Hcons l.
  assert (P l /\ (forall p l', l = p :: l' -> P l')) as [H _]; [|exact H].
  induction l as [|o l [IH1 IH2]].
  - split; [exact Hnil | intros p l' H; discriminate H].
  - split; [by apply Hcons | intros p l' [= <- <-]; exact IH1].
Qed.

(** The scan leaves the part already passed alone, and what it puts after
    it is no longer than what was ahead, plus the appended rectangle. *)
Lemma merge_scan_tail rows cols n rest :
  forall (done : list Rect) (append : bool),
    exists tail : list Rect,
      merge_scan rows cols n done rest append = done ++ tail /\
      (length tail <= length rest + (if append then 1 else 0))%nat.
Proof.
  induction rest as [|o rest IH1 IH2] using scan_ind; intros done append.
  - simpl. destruct append.
    + exists [n]. split; [done | simpl; lia].
    + exists []. split; [by rewrite app_nil_r | simpl; lia].
  - cbn [merge_scan].
    destruct (new_in_old o n).
    { exists (o :: rest). split; [done | simpl; lia]. }
    destruct (old_in_new o n).
    { destruct rest as [|p rest''].
      - exists []. split; [by rewrite app_nil_r | simpl; lia].
      - destruct (IH2 p rest'' eq_refl (done ++ [p]) false) as (tail & -> & Hlen).
        exists (p :: tail). split; [by rewrite <- app_assoc | simpl in *; lia]. }
    destruct (joins rows cols o n).
    + destruct (IH1 (done ++ [union_box o n]) false) as (tail & -> & Hlen).
      exists (union_box o n :: tail). split; [by rewrite <- app_assoc | simpl in *; lia].
    + destruct (IH1 (done ++ [o]) append) as (tail & -> & Hlen).
      exists (o :: tail). split; [by rewrite <- app_assoc | simpl in *; lia].
Qed.

(** A property kept by unions that holds of all entries and of the incoming
    rectangle holds of all entries afterwards. *)
Lemma merge_scan_Forall (P : Rect -> Prop) rows cols n rest :
  union_closed P -> P n ->
  forall (done : list Rect) (append : bool),
    Forall P done -> Forall P rest ->
    Forall P (merge_scan rows cols n done rest append).
Proof.
  intros Hu Hn.
  induction rest as [|o rest IH1 IH2] using scan_ind; intros done append Hd Hr.
  - simpl. destruct append; [|done]. apply Forall_app. split; [done | by constructor].
  - cbn [merge_scan]. inversion Hr as [|? ? Ho Hr']; subst.
    destruct (new_in_old o n).
    { apply Forall_app. by split. }
    destruct (old_in_new o n).
    { destruct rest as [|p rest'']; [done|].
      inversion Hr' as [|? ? Hp Hr'']; subst.
      apply (IH2 p rest'' eq_refl); [|done].
      apply Forall_app. split; [done | by constructor]. }
    destruct (joins rows cols o n).
    + apply IH1; [|done]. apply Forall_app. split; [done|].
      constructor; [by apply Hu | constructor].
    + apply IH1; [|done]. apply Forall_app. split; [done | by constructor].
Qed.

Lemma intersects_Forall (P : Rect -> Prop) rows cols rects n :
  union_closed P -> P n -> Forall P rects ->
  exists out, intersects rows cols rects n = Ok out /\ Forall P out.
Proof.
  intros Hu Hn Hr. rewrite intersects_merge_scan. eexists. split; [done|].
  by apply merge_scan_Forall.
Qed.

Lemma new_in_old_contained o n : new_in_old o n = true <-> contained n o.
Proof. unfold new_in_old, contained. rewrite !andb_true_iff, !Z.leb_le. tauto. Qed.

Lemma old_in_new_spec o n :
  old_in_new o n = true <->
  rx n < rx o /\ rx o + rw o <= rx n + rw n /\ ry n < ry o /\ ry o + rh o <= ry n + rh n.
Proof. unfold old_in_new. rewrite !andb_true_iff, !Z.leb_le, !Z.ltb_lt. tauto. Qed.

Lemma union_box_contained o n : contained n o -> union_box o n = o.
Proof.
  destruct o as [xo yo wo ho], n as [xn yn wn hn].
  unfold contained, union_box. simpl. intros (H1 & H2 & H3 & H4).
  f_equal; lia.
Qed.

(** An overlap of the extended rectangle with the entry on both axes makes
    the partial-intersection test succeed. *)
Lemma overlaps_joins rows cols o n :
  well_formed o -> well_formed n -> overlaps rows cols o n ->
  joins rows cols o n = true.
Proof.
  destruct o as [xo yo wo ho], n as [xn yn wn hn].
  unfold well_formed, overlaps, joins, x1nn, x2nn, y1nn, y2nn, extend. cbn.
  intros [Hwo Hho] [Hwn Hhn] (H1 & H2 & H3 & H4).
  destruct (_ && _ && _ && _); [done|].
  apply andb_true_iff. split; apply Z.leb_le; lia.
Qed.

(** Entries that trigger neither containment test are passed one by one,
    joined or left alone, and keep their positions. *)
Lemma merge_scan_passes rows cols n pre :
  Forall (fun p => new_in_old p n = false /\ old_in_new p n = false) pre ->
  forall (done rest : list Rect) (append : bool),
    exists (pre' : list Rect) (append' : bool),
      length pre' = length pre /\
      merge_scan rows cols n done (pre ++ rest) append
      = merge_scan rows cols n (done ++ pre') rest append'.
Proof.
  induction 1 as [|p pre [Hnew Hold] _ IH]; intros done rest append.
  - exists [], append. by rewrite app_nil_r.
  - cbn [app merge_scan]. rewrite Hnew, Hold.
    destruct (joins rows cols p n).
    + destruct (IH (done ++ [union_box p n]) rest false) as (pre' & append' & Hlen & ->).
      exists (union_box p n :: pre'), append'. split; [simpl; lia | by rewrite <- app_assoc].
    + destruct (IH (done ++ [p]) rest append) as (pre' & append' & Hlen & ->).
      exists (p :: pre'), append'. split; [simpl; lia | by rewrite <- app_assoc].
Qed.

(** [scan_loop] is the loop followed by the final [if append]. *)
Lemma scan_loop_ending rows cols n fuel :
  forall (k : nat) (s : scan),
    scan_loop fuel rows cols n k s
    = (e <-- scan_run fuel rows cols n k s ;; Ok (ending n e)).
Proof.
  induction fuel as [|fuel IH]; intros k s; [done|].
  cbn [scan_loop scan_run].
  destruct (sc_rects s !! k) as [o|]; [|done].
  destruct (scan_body rows cols n o s) as [[rects|s']|err]; cbn [bind];
    [done | apply IH | done].
Qed.

(** The loop always ends, and once [append] is false it stays false. *)
Lemma scan_run_ends rows cols n fuel :
  forall (done rest : list Rect) (append : bool),
    (length rest <= fuel)%nat ->
    exists e : loop_end,
      scan_run fuel rows cols n (length done)
        (mkScan (done ++ rest) (length done) append) = Ok e /\
      (append = false -> appends_new e = false).
Proof.
  induction fuel as [|fuel IH]; intros done rest append Hlen.
  - eexists. split; [done|]. by intros ->.
  - destruct rest as [|o rest'].
    + cbn [scan_run sc_rects]. rewrite app_nil_r, lookup_ge_None_2 by lia.
      eexists. split; [done|]. by intros ->.
    + cbn [scan_run sc_rects]. rewrite list_lookup_middle by done.
      unfold scan_body. cbn [sc_rects sc_i sc_append].
      destruct (new_in_old o n).
      { eexists. split; done. }
      destruct (old_in_new o n).
      * rewrite pop_middle. cbn [bind].
        destruct rest' as [|p rest''].
        -- exists (Exhausted (mkScan (done ++ []) (S (length done)) false)).
           split; [|done].
           destruct fuel; [done|].
           cbn [scan_run sc_rects]. by rewrite app_nil_r, lookup_ge_None_2 by lia.
        -- replace (done ++ p :: rest'') with ((done ++ [p]) ++ rest'')
             by (by rewrite <- app_assoc).
           replace (S (length done)) with (length (done ++ [p]))
             by (rewrite length_app; simpl; lia).
           destruct (IH (done ++ [p]) rest'' false) as (e & He & Hf);
             [simpl in Hlen; lia|].
           exists e. split; [done | intros _; by apply Hf].
      * destruct (joins rows cols o n).
        -- rewrite assign_middle. cbn [bind].
           replace (S (length done)) with (length (done ++ [union_box o n]))
             by (rewrite length_app; simpl; lia).
           destruct (IH (done ++ [union_box o n]) rest' false) as (e & He & Hf);
             [simpl in Hlen; lia|].
           exists e. split; [done | intros _; by apply Hf].
        -- cbn [bind].
           replace (done ++ o :: rest') with ((done ++ [o]) ++ rest')
             by (by rewrite <- app_assoc).
           replace (S (length done)) with (length (done ++ [o]))
             by (rewrite length_app; simpl; lia).
           apply IH. simpl in Hlen. lia.
Qed.

(** What the loop leaves is what the functional scan computes. *)
Lemma scan_run_ending rows cols n fuel (done rest : list Rect) (append : bool) e :
  (length rest <= fuel)%nat ->
  scan_run fuel rows cols n (length done)
    (mkScan (done ++ rest) (length done) append) = Ok e ->
  ending n e = merge_scan rows cols n done rest append.
Proof.
  intros Hlen He.
  pose proof (scan_loop_ending rows cols n fuel (length done)
                (mkScan (done ++ rest) (length done) append)) as Hl.
  rewrite He, scan_loop_merge_scan in Hl by done.
  cbn [bind] in Hl. by injection Hl as <-.
Qed.

(** The loop passes entries that trigger neither containment test one by
    one, with the counter at the iterator's position. *)
Lemma scan_run_passes rows cols n pre :
  Forall (fun p => new_in_old p n = false /\ old_in_new p n = false) pre ->
  forall (fuel : nat) (done rest : list Rect) (append : bool),
    exists (pre' : list Rect) (append' : bool),
      length pre' = length pre /\
      scan_run (length pre + fuel) rows cols n (length done)
        (mkScan (done ++ pre ++ rest) (length done) append)
      = scan_run fuel rows cols n (length (done ++ pre'))
          (mkScan ((done ++ pre') ++ rest) (length (done ++ pre')) append').
Proof.
  induction 1 as [|p pre [Hnew Hold] _ IH]; intros fuel done rest append.
  - exists [], append. split; [done|]. cbn [length Nat.add app]. by rewrite !app_nil_r.
  - cbn [length Nat.add app scan_run sc_rects]. rewrite list_lookup_middle by done.
    unfold scan_body. cbn [sc_rects sc_i sc_append]. rewrite Hnew, Hold.
    destruct (joins rows cols p n).
    + rewrite assign_middle. cbn [bind].
      destruct (IH fuel (done ++ [union_box p n]) rest false)
        as (pre' & append' & Hlen & Heq).
      exists (union_box p n :: pre'), append'. split; [simpl; lia|].
      replace (S (length done)) with (length (done ++ [union_box p n]))
        by (rewrite length_app; simpl; lia).
      replace (done ++ union_box p n :: pre') with ((done ++ [union_box p n]) ++ pre')
        by (by rewrite <- app_assoc).
      exact Heq.
    + cbn [bind].
      destruct (IH fuel (done ++ [p]) rest append) as (pre' & append' & Hlen & Heq).
      exists (p :: pre'), append'. split; [simpl; lia|].
      replace (S (length done)) with (length (done ++ [p]))
        by (rewrite length_app; simpl; lia).
      replace (done ++ p :: pre ++ rest) with ((done ++ [p]) ++ pre ++ rest)
        by (by rewrite <- app_assoc).
      replace (done ++ p :: pre') with ((done ++ [p]) ++ pre')
        by (by rewrite <- app_assoc).
      exact Heq.
Qed.

(** Claim C4, as amended.  An entry [o] at position [i] of the accumulated
    list and an incoming rectangle [n], both of positive width and height,
    such that [n], extended by the margin of 3 and clamped to the grid,
    overlaps [o] on both axes.  If no entry before [o] contains [n] (the
    scan would return there, before it reaches [o]), then the loop of
    [intersects] ends, position [i] of the returned list holds the union
    bounding box of the two raw rectangles, and the final
    [rects.append] of [n] is not executed.  Scans in which the second
    containment test removes [o] or an entry before it are not covered. *)
Theorem near_rectangles_merge rows cols (rects : list Rect) n (i : nat) o :
  rects !! i = Some o ->
  well_formed o -> well_formed n ->
  Forall (fun p => new_in_old p n = false /\ old_in_new p n = false) (take i rects) ->
  old_in_new o n = false ->
  overlaps rows cols o n ->
  exists e : loop_end,
    scan_run (length rects) rows cols n 0 (mkScan rects 0 true) = Ok e /\
    intersects rows cols rects n = Ok (ending n e) /\
    ending n e !! i = Some (union_box o n) /\
    appends_new e = false /\
    (length (ending n e) <= length rects)%nat.
Proof.
  intros Hi Ho Hn Hpre Hold Hov.
  pose proof (lookup_lt_Some _ _ _ Hi) as Hlt.
  assert (length (take i rects) = i) as Hlenpre by (rewrite length_take_le; lia).
  assert (rects = take i rects ++ o :: drop (S i) rects) as Hsplit
    by (symmetry; by apply take_drop_middle).
  revert Hpre Hlenpre Hsplit.
  generalize (take i rects), (drop (S i) rects). intros pre post Hpre Hlenpre ->.
  clear Hi Hlt.
  assert (exists e : loop_end,
            scan_run (length (pre ++ o :: post)) rows cols n 0
              (mkScan (pre ++ o :: post) 0 true) = Ok e /\
            appends_new e = false) as (e & Hrun & Hflag).
  { destruct (scan_run_passes rows cols n pre Hpre (S (length post)) [] (o :: post) true)
      as (pre' & append' & Hlen & Heq).
    rewrite length_app. cbn [length app] in *. rewrite Heq.
    cbn [scan_run sc_rects]. rewrite list_lookup_middle by done.
    unfold scan_body. cbn [sc_rects sc_i sc_append]. rewrite Hold.
    destruct (new_in_old o n).
    { eexists. split; done. }
    rewrite (overlaps_joins rows cols o n Ho Hn Hov), assign_middle. cbn [bind].
    replace (S (length pre')) with (length (pre' ++ [union_box o n]))
      by (rewrite length_app; simpl; lia).
    destruct (scan_run_ends rows cols n (length post) (pre' ++ [union_box o n]) post false)
      as (e & He & Hf); [done|].
    exists e. split; [done | by apply Hf]. }
  exists e. split; [done|].
  pose proof (scan_run_ending rows cols n (length (pre ++ o :: post)) []
                (pre ++ o :: post) true e (le_n _) Hrun) as Hend.
  split; [by rewrite intersects_merge_scan, Hend|].
  rewrite Hend. split; [|split; [done|]].
  - destruct (merge_scan_passes rows cols n pre Hpre [] (o :: post) true)
      as (pre' & append' & Hlen & ->).
    cbn [app merge_scan]. rewrite Hold.
    destruct (new_in_old o n) eqn:Hnew.
    + apply new_in_old_contained in Hnew. rewrite (union_box_contained o n Hnew).
      apply list_lookup_middle. lia.
    + rewrite (overlaps_joins rows cols o n Ho Hn Hov).
      destruct (merge_scan_tail rows cols n post (pre' ++ [union_box o n]) false)
        as (tail & -> & _).
      rewrite <- app_assoc. apply list_lookup_middle. lia.
  - destruct (merge_scan_passes rows cols n pre Hpre [] (o :: post) true)
      as (pre' & append' & Hlen & ->).
    cbn [app merge_scan]. rewrite Hold.
    destruct (new_in_old o n).
    + rewrite !length_app. simpl. lia.
    + rewrite (overlaps_joins rows cols o n Ho Hn Hov).
      destruct (merge_scan_tail rows cols n post (pre' ++ [union_box o n]) false)
        as (tail & -> & Htail).
      rewrite !length_app. simpl in *. lia.
Qed.

(** Entries that trigger no rule at all are passed unchanged. *)
Lemma merge_scan_idle rows cols n pre :
  Forall (fun p => new_in_old p n = false /\ old_in_new p n = false /\
                   joins rows cols p n = false) pre ->
  forall (done rest : list Rect) (append : bool),
    merge_scan rows cols n done (pre ++ rest) append
    = merge_scan rows cols n (done ++ pre) rest append.
Proof.
  induction 1 as [|p pre (Hnew & Hold & Hjoin) _ IH]; intros done rest append.
  - by rewrite app_nil_r.
  - cbn [app merge_scan]. rewrite Hnew, Hold, Hjoin, IH. by rewrite <- app_assoc.
Qed.

(** An entry removed by the second containment test takes the scan over
    the entry after it: that entry keeps its place untested, and the scan
    goes on behind it with [append] false. *)
Lemma removal_skips_next rows cols n (done rest : list Rect) o p :
  Forall (fun p => new_in_old p n = false /\ old_in_new p n = false /\
                   joins rows cols p n = false) done ->
  new_in_old o n = false -> old_in_new o n = true ->
  intersects rows cols (done ++ [o]) n = Ok done /\
  intersects rows cols (done ++ o :: p :: rest) n
  = Ok (merge_scan rows cols n (done ++ [p]) rest false).
Proof.
  intros Hdone Hnew Hold. rewrite !intersects_merge_scan.
  rewrite !(merge_scan_idle rows cols n done Hdone). cbn [merge_scan app].
  by rewrite Hnew, Hold.
Qed.

Section RemoveIntersectionsFacts.
Context {Contour : Type} (boundingRect : Contour -> Rect).

(** [removeIntersections] never raises, and a property kept by unions that
    holds of every bounding rectangle within [maxArea] holds of every merged
    rectangle. *)
Lemma removeIntersections_from_Forall (P : Rect -> Prop) rows cols maxArea contours :
  union_closed P ->
  Forall (fun cnt => area (boundingRect cnt) <= maxArea -> P (boundingRect cnt)) contours ->
  forall rects, Forall P rects ->
  exists out,
    removeIntersections_from boundingRect rows cols maxArea contours rects = Ok out /\
    Forall P out.
Proof.
  intros Hu Hc. induction Hc as [|cnt contours Hcnt Hc IH]; intros rects Hr.
  - by exists rects.
  - cbn [removeIntersections_from].
    destruct (Z.ltb_spec maxArea (rw (boundingRect cnt) * rh (boundingRect cnt))) as [Hbig|Hfit].
    + by apply IH.
    + assert (P (boundingRect cnt)) as Hp by (apply Hcnt; unfold area; lia).
      destruct (0 <? length rects)%nat.
      * destruct (intersects_Forall P rows cols rects (boundingRect cnt) Hu Hp Hr)
          as (out & -> & Hout).
        cbn [bind]. by apply IH.
      * apply IH. apply Forall_app. split; [done | by constructor].
Qed.

Lemma removeIntersections_Forall (P : Rect -> Prop) rows cols maxArea contours :
  union_closed P ->
  Forall (fun cnt => area (boundingRect cnt) <= maxArea -> P (boundingRect cnt)) contours ->
  exists out,
    removeIntersections boundingRect rows cols maxArea contours = Ok out /\
    Forall P out.
Proof.
  intros Hu Hc. by apply (removeIntersections_from_Forall P rows cols maxArea contours Hu Hc []).
Qed.
End RemoveIntersectionsFacts.

End MergerFacts.

(** ** The arrays *)

Module NpFacts.

Lemma zip_with_map_same {A B C D : Type} (f : B -> C -> D) (g : A -> B) (h : A -> C)
    (l : list A) :
  zip_with f (map g l) (map h l) = map (fun x => f (g x) (h x)) l.
Proof. induction l as [|x l IH]; simpl; [done | by rewrite IH]. Qed.

Lemma map2_field {A B C D : Type} (f : B -> C -> D) (g : A -> B) (h : A -> C)
    (a : Grid A) :
  Np.map2 f (Np.field g a) (Np.field h a) = Np.field (fun x => f (g x) (h x)) a.
Proof.
  unfold Np.map2, Np.field.
  induction a as [|row a IH]; simpl; [done|].
  by rewrite zip_with_map_same, IH.
Qed.

Lemma field_field {A B C : Type} (f : A -> B) (g : B -> C) (a : Grid A) :
  Np.field g (Np.field f a) = Np.field (fun x => g (f x)) a.
Proof.
  unfold Np.field. rewrite map_map. apply map_ext. intros row. by rewrite map_map.
Qed.

(** The array of magnitudes holds [cell_mag] of every cell. *)
Lemma mag_cells (a : Grid MotionBlock) : mag a = Np.field cell_mag a.
Proof.
  unfold mag, Np.add, Np.abs. rewrite !field_field. by rewrite map2_field.
Qed.

(** What [np.logical_and] leaves in the mask: the magnitude band alone.
    The comparison of [sad] against the threshold was the output buffer. *)
Lemma has_movement_cells (st : Analyser) (a : Grid MotionBlock) :
  has_movement st a = Np.field (moving st) a.
Proof.
  unfold has_movement, Np.logical_and, Np.gt, Np.lt.
  rewrite mag_cells, !field_field, !map2_field. done.
Qed.

Lemma wrap8_small (z : Z) : -128 <= z <= 127 -> Np.wrap8 z = z.
Proof. intros H. unfold Np.wrap8. rewrite Z.mod_small; lia. Qed.

(** Within the int8 range the magnitude is |vx| + |vy|. *)
Lemma cell_mag_exact (b : MotionBlock) :
  Z.abs (mx b) + Z.abs (my b) <= 127 ->
  cell_mag b = Z.abs (mx b) + Z.abs (my b).
Proof.
  intros H. unfold cell_mag, Np.add8, Np.abs8.
  rewrite (wrap8_small (Z.abs (mx b))), (wrap8_small (Z.abs (my b))) by lia.
  apply wrap8_small. lia.
Qed.

Lemma index_in_range {A : Type} (l : list A) (i : Z) :
  0 <= i < Z.of_nat (length l) -> exists v, Np.index l i = Ok v /\ l !! Z.to_nat i = Some v.
Proof.
  intros H. unfold Np.index.
  destruct (Z.ltb_spec i 0) as [?|_]; [lia|].
  destruct (Z.leb_spec 0 i) as [_|?]; [|lia].
  destruct (Z.ltb_spec i (Z.of_nat (length l))) as [_|?]; [|lia].
  simpl. destruct (lookup_lt_is_Some_2 l (Z.to_nat i)) as [v Hv]; [lia|].
  exists v. by rewrite Hv.
Qed.

Lemma index2_in_grid {A : Type} rows cols (a : Grid A) (y x : Z) :
  shaped rows cols a -> 0 <= y < rows -> 0 <= x < cols ->
  exists cell, Np.index2 a y x = Ok cell.
Proof.
  intros [Hrows Hcols] Hy Hx. unfold Np.index2.
  destruct (index_in_range a y) as (row & -> & Hrow); [lia|].
  cbn [bind].
  assert (Z.of_nat (length row) = cols) as Hlen.
  { rewrite Forall_forall in Hcols. apply Hcols. by eapply list_elem_of_lookup_2. }
  destruct (index_in_range row x) as (cell & -> & _); [lia|].
  by exists cell.
Qed.

End NpFacts.

Import MergerFacts NpFacts.

(** ** The noise filter *)

Lemma emitted_too_big st a r : maxArea st < area r -> emitted st a r = None.
Proof.
  intros H. unfold emitted, reduce. unfold area in H.
  destruct (Z.ltb_spec (maxArea st) (rw r * rh r)); [done | lia].
Qed.

Lemma emitted_single st a r cell :
  area r <= maxArea st -> single_cell r = true ->
  Np.index2 a (ry r) (rx r) = Ok cell ->
  emitted st a r = Some (r, (Np.of_int (mx cell), Np.of_int (my cell))).
Proof.
  intros Harea Hs Hcell. unfold emitted, reduce. unfold area in Harea.
  destruct (Z.ltb_spec (maxArea st) (rw r * rh r)); [lia|].
  by rewrite Hs, Hcell.
Qed.

Lemma emitted_rect st a r p :
  emitted st a r = Some p -> p.1 = r /\ area r <= maxArea st.
Proof.
  unfold emitted, reduce, area.
  destruct (Z.ltb_spec (maxArea st) (rw r * rh r)); [done|].
  destruct (single_cell r).
  - destruct (Np.index2 a (ry r) (rx r)); simpl; [|done].
    intros [= <-]. done.
  - destruct (Np.lt_int _ _); simpl; [done|].
    intros [= <-]. done.
Qed.

Lemma reduce_points st a r t t' :
  reduce st a r t = Ok t' ->
  new_points t' = new_points t ++ option_list (emitted st a r).
Proof.
  unfold emitted, reduce.
  destruct (maxArea st <? rw r * rh r).
  { intros [= <-]. simpl. by rewrite app_nil_r. }
  destruct (single_cell r).
  - destruct (Np.index2 a (ry r) (rx r)); simpl; [|done].
    by intros [= <-].
  - destruct (Np.lt_int _ _); simpl; intros [= <-]; simpl; [by rewrite app_nil_r | done].
Qed.

(** The output list grows by the entries of the rectangles, in order. *)
Lemma reduce_all_points st a rects :
  forall t t', reduce_all st a rects t = Ok t' ->
  new_points t' = new_points t ++ omap (emitted st a) rects.
Proof.
  induction rects as [|r rects IH]; intros t t'; simpl.
  - intros [= <-]. by rewrite app_nil_r.
  - destruct (reduce st a r t) as [t1|] eqn:Hr; simpl; [|done].
    intros H. rewrite (IH _ _ H), (reduce_points _ _ _ _ _ Hr), <- app_assoc.
    by destruct (emitted st a r).
Qed.

Lemma reduce_same st st' a r t :
  same_thresholds st st' -> reduce st' a r t = reduce st a r t.
Proof.
  intros (_ & _ & Hmax & Hsad & _). unfold reduce. by rewrite Hmax, Hsad.
Qed.

Lemma reduce_all_same st st' a rects :
  same_thresholds st st' ->
  forall t, reduce_all st' a rects t = reduce_all st a rects t.
Proof.
  intros Hsame. induction rects as [|r rects IH]; intros t; simpl; [done|].
  rewrite (reduce_same st st' a r t Hsame).
  destruct (reduce st a r t); simpl; [apply IH | done].
Qed.

Lemma has_movement_same st st' a :
  same_thresholds st st' -> has_movement st' a = has_movement st a.
Proof.
  intros (_ & _ & _ & Hsad & Hvmin & Hvmax & _). unfold has_movement.
  by rewrite Hsad, Hvmin, Hvmax.
Qed.

Section AnalyseFacts.
Context {Contour : Type}.
Context (findContours : Grid Z -> list Contour).
Context (boundingRect : Contour -> Rect).

Lemma regions_points st a pts :
  regions findContours boundingRect st a = Ok (Some pts) ->
  exists rects,
    merged findContours boundingRect st a = Ok rects /\
    pts = omap (emitted st a) rects.
Proof.
  unfold regions, merged.
  destruct (too_many _ st); [done|].
  destruct (Merger.removeIntersections _ _ _ _ _) as [rects|]; simpl; [|done].
  destruct (reduce_all st a rects _) as [t|] eqn:Ht; simpl; [|done].
  intros [= <-]. exists rects. split; [done|].
  by rewrite (reduce_all_points _ _ _ _ _ Ht).
Qed.

Lemma regions_area st a pts :
  regions findContours boundingRect st a = Ok (Some pts) ->
  Forall (fun p : Point => area p.1 <= maxArea st) pts.
Proof.
  intros (rects & _ & ->)%regions_points.
  apply Forall_forall. intros p (r & _ & Hr)%list_elem_of_omap.
  apply emitted_rect in Hr as [-> Hr]. done.
Qed.

(** The thresholds, the cap and the grid size are all that [regions]
    reads. *)
Lemma regions_same st st' a :
  same_thresholds st st' ->
  regions findContours boundingRect st' a = regions findContours boundingRect st a.
Proof.
  intros Hsame. unfold regions.
  rewrite (has_movement_same st st' a Hsame).
  pose proof Hsame as (Hr & Hc & Hmax & _ & _ & _ & Hcap).
  unfold too_many. rewrite Hr, Hc, Hmax, Hcap.
  destruct (negb _); [done|].
  destruct (Merger.removeIntersections _ _ _ _ _); simpl; [|done].
  by rewrite (reduce_all_same st st' a _ Hsame).
Qed.

(** Claim C3.  No entry handed to the tracker has a rectangle whose area
    exceeds [maxArea], whether it came from a single contour or from a
    union made by the merger. *)
Theorem emitted_within_maxArea sink_opens frame_index a st :
  Forall (fun call =>
            match call with
            | UpdateTracks _ pts => Forall (fun p : Point => area p.1 <= maxArea st) pts
            | SetupSizes _ _ => True
            end)
         (out_calls (analyse findContours boundingRect sink_opens frame_index a st)).
Proof.
  unfold analyse.
  set (st1 := with_processed_frames _ _).
  assert (maxArea st1 = maxArea st) as Hmax by done.
  destruct (if debug st1 then debug_out sink_opens a st1 else Ok st1) as [st2|e] eqn:Hd;
    [|by constructor].
  assert (maxArea st2 = maxArea st) as Hmax2.
  { destruct (debug st1); [|by injection Hd as <-].
    unfold debug_out in Hd.
    destruct (fobj st1); [|destruct sink_opens]; simpl in Hd; try done;
      by injection Hd as <-. }
  destruct (negb (started st2)); [by repeat constructor|].
  destruct (regions _ _ st2 a) as [[pts|]|] eqn:Hr; simpl; try by constructor.
  constructor; [|constructor].
  rewrite <- Hmax2. by eapply regions_area.
Qed.
End AnalyseFacts.

Lemma union_closed_grid rows cols (side : Prop) :
  union_closed (fun r => well_formed r /\ in_grid rows cols r /\ side).
Proof.
  intros [xo yo wo ho] [xn yn wn hn].
  unfold well_formed, in_grid, Merger.union_box. simpl.
  intros ([? ?] & (? & ? & ? & ?) & ?) ([? ?] & (? & ? & ? & ?) & _).
  repeat split; try done; lia.
Qed.

Lemma reduce_in_grid st a r t :
  shaped (rows st) (cols st) a ->
  well_formed r -> in_grid (rows st) (cols st) r ->
  exists t', reduce st a r t = Ok t'.
Proof.
  intros Hshape [Hw Hh] (Hx & Hy & Hx' & Hy'). unfold reduce.
  destruct (maxArea st <? rw r * rh r); [by eexists|].
  destruct (single_cell r).
  - destruct (index2_in_grid (rows st) (cols st) a (ry r) (rx r)) as [cell ->];
      [done | lia | lia |].
    simpl. by eexists.
  - destruct (Np.lt_int _ _); by eexists.
Qed.

(** On rectangles inside the grid no index is out of range. *)
Lemma reduce_all_in_grid st a rects :
  shaped (rows st) (cols st) a ->
  Forall (fun r => well_formed r /\ in_grid (rows st) (cols st) r) rects ->
  forall t, exists t', reduce_all st a rects t = Ok t'.
Proof.
  intros Hshape. induction 1 as [|r rects [Hwf Hin] _ IH]; intros t; simpl.
  - by eexists.
  - destruct (reduce_in_grid st a r t Hshape Hwf Hin) as [t1 ->]. simpl. apply IH.
Qed.

Section RegionFacts.
Context {Contour : Type}.
Context (findContours : Grid Z -> list Contour).
Context (boundingRect : Contour -> Rect).

(** Claim C7, as amended.  On a frame that the movement guard lets
    through, with contour rectangles inside the grid: every merged
    rectangle with [w < 2] and [h < 2] is appended to the output with the
    cell's raw [(vx, vy)] as vector; the cell's raw [sad] is the
    confidence inside the loop only, where a value below [sadThreshold]
    adds one to [rejects] and nothing else; the appended entry holds the
    rectangle and the vector. *)
Theorem single_cell_regions st a :
  shaped (rows st) (cols st) a ->
  Forall (fun cnt => well_formed (boundingRect cnt) /\
                     in_grid (rows st) (cols st) (boundingRect cnt))
         (findContours (Np.to_mask (has_movement st a))) ->
  too_many (Np.count_nonzero (has_movement st a)) st = false ->
  exists (rects : list Rect) (pts : list Point),
    merged findContours boundingRect st a = Ok rects /\
    regions findContours boundingRect st a = Ok (Some pts) /\
    forall r, r ∈ rects -> rw r < 2 -> rh r < 2 ->
      exists cell,
        Np.index2 a (ry r) (rx r) = Ok cell /\
        (r, (Np.of_int (mx cell), Np.of_int (my cell))) ∈ pts /\
        forall t,
          reduce st a r t =
          Ok (mkTally (new_points t ++ [(r, (Np.of_int (mx cell), Np.of_int (my cell)))])
                      (if sad cell <? sadThreshold st then rejects t + 1 else rejects t)
                      (num_small t + 1) (num_large t)).
Proof.
  intros Hshape Hc Hcap.
  set (P := fun r => well_formed r /\ in_grid (rows st) (cols st) r /\ 1 <= maxArea st).
  destruct (removeIntersections_Forall boundingRect P (rows st) (cols st) (maxArea st)
              (findContours (Np.to_mask (has_movement st a))))
    as (rects & Hm & HP).
  { apply union_closed_grid. }
  { eapply Forall_impl; [exact Hc|]. intros cnt [[Hw Hh] Hin] Harea.
    unfold area in Harea.
    assert (1 * 1 <= rw (boundingRect cnt) * rh (boundingRect cnt))
      by (apply Z.mul_le_mono_nonneg; lia).
    split; [done|]. split; [done | lia]. }
  destruct (reduce_all_in_grid st a rects Hshape) with (t := mkTally [] 0 0 0)
    as [t' Ht'].
  { eapply Forall_impl; [exact HP|]. intros r (? & ? & ?). done. }
  exists rects, (new_points t'). split; [exact Hm|]. split.
  { unfold regions. rewrite Hcap, Hm. cbn [bind]. by rewrite Ht'. }
  intros r Hr Hw2 Hh2.
  rewrite Forall_forall in HP. destruct (HP r Hr) as ([Hw Hh] & (Hx & Hy & Hx' & Hy') & Hmax).
  assert (rw r = 1) as Hw1 by lia. assert (rh r = 1) as Hh1 by lia.
  destruct (index2_in_grid (rows st) (cols st) a (ry r) (rx r)) as [cell Hcell];
    [done | lia | lia |].
  assert (single_cell r = true) as Hs.
  { unfold single_cell. rewrite Hw1, Hh1. done. }
  exists cell. split; [exact Hcell|]. split.
  - rewrite (reduce_all_points _ _ _ _ _ Ht'). simpl.
    apply list_elem_of_omap. exists r. split; [done|].
    apply emitted_single; [unfold area; rewrite Hw1, Hh1; lia | done | done].
  - intros t. unfold reduce.
    destruct (Z.ltb_spec (maxArea st) (rw r * rh r)) as [Hbig|_];
      [rewrite Hw1, Hh1 in Hbig; lia|].
    by rewrite Hs, Hcell.
Qed.

End RegionFacts.

(** ** The movement guard *)

(** A new object is uncalibrated, with the cap at 100. *)
Lemma init_uncalibrated rows cols conf st :
  init rows cols conf = Ok st ->
  started st = false /\ maxMovements st = (100 # 1)%Q /\ minArea st = 1.
Proof.
  unfold init.
  repeat (destruct (conf_get conf _); simpl; [|done]).
  by intros [= <-].
Qed.

(** The comparison against the cap, once the cap is the calibrated one. *)
Lemma too_many_cap st m :
  maxMovements st = movement_cap st ->
  too_many m st = true <-> rows st * cols st < 8 * m.
Proof.
  intros Hcap. unfold too_many. rewrite Hcap. unfold movement_cap.
  rewrite negb_true_iff.
  split.
  - intros H. destruct (Z.lt_ge_cases (rows st * cols st) (8 * m)) as [|Hge]; [done|].
    exfalso. apply not_true_iff_false in H. apply H. apply Qle_bool_iff.
    rewrite Qred_correct. unfold Qle. simpl. lia.
  - intros H. apply not_true_iff_false. intros Hle%Qle_bool_iff.
    rewrite Qred_correct in Hle. unfold Qle in Hle. simpl in Hle. lia.
Qed.

Lemma conf_store_fields key value st :
  rows (conf_store key value st) = rows st /\
  cols (conf_store key value st) = cols st /\
  started (conf_store key value st) = started st /\
  maxMovements (conf_store key value st) = maxMovements st.
Proof. unfold conf_store. by destruct (config st). Qed.

Lemma run_setter_fields s value st :
  rows (run_setter s value st) = rows st /\
  cols (run_setter s value st) = cols st /\
  started (run_setter s value st) = started st /\
  maxMovements (run_setter s value st) = maxMovements st.
Proof.
  destruct s; simpl;
    unfold set_vMin, set_vMax, set_minArea, set_maxArea, set_sadThreshold;
    repeat match goal with |- context [if ?c then _ else _] => destruct c end;
    try done;
    match goal with
    | |- context [conf_store ?k ?v ?s] =>
        destruct (conf_store_fields k v s) as (-> & -> & -> & ->)
    end; done.
Qed.

Section GuardFacts.
Context {Contour : Type}.
Context (findContours : Grid Z -> list Contour).
Context (boundingRect : Contour -> Rect).

Lemma debug_out_fields sink_opens a st st' :
  debug_out sink_opens a st = Ok st' ->
  rows st' = rows st /\ cols st' = cols st /\
  started st' = started st /\ maxMovements st' = maxMovements st.
Proof.
  unfold debug_out.
  destruct (fobj st); [|destruct sink_opens]; simpl; try done; by intros [= <-].
Qed.

(** The cap is set at the calibration and nothing changes it afterwards. *)
Lemma reachable_cap st :
  reachable findContours boundingRect st ->
  started st = true -> maxMovements st = movement_cap st.
Proof.
  induction 1 as [st Hnew | st sink_opens f a _ IH | st s value _ IH | st value _ IH].
  - congruence.
  - unfold analyse.
    set (st1 := with_processed_frames _ _).
    assert (rows st1 = rows st /\ cols st1 = cols st /\
            started st1 = started st /\ maxMovements st1 = maxMovements st)
      as Hst1 by done.
    destruct (if debug st1 then debug_out sink_opens a st1 else Ok st1) as [st2|e] eqn:Hd.
    + assert (rows st2 = rows st /\ cols st2 = cols st /\
              started st2 = started st /\ maxMovements st2 = maxMovements st)
        as (Hr & Hc & Hs & Hm).
      { destruct (debug st1); [|by injection Hd as <-].
        apply debug_out_fields in Hd. destruct Hd as (-> & -> & -> & ->). done. }
      destruct (started st2) eqn:Hst2; simpl.
      * assert (forall calls raised,
                  started (out_state (mkOutcome st2 calls raised)) = true ->
                  maxMovements (out_state (mkOutcome st2 calls raised))
                  = movement_cap (out_state (mkOutcome st2 calls raised))) as Hgoal.
        { intros calls raised _. simpl. unfold movement_cap.
          rewrite Hm, Hr, Hc. apply IH. congruence. }
        destruct (regions _ _ st2 a) as [[pts|]|]; apply Hgoal.
      * intros _. reflexivity.
    + simpl. intros Hs. apply IH. exact Hs.
  - destruct (run_setter_fields s value st) as (Hr & Hc & Hs & Hm).
    unfold movement_cap. rewrite Hr, Hc, Hs, Hm. exact IH.
  - unfold set_debug. destruct value; exact IH.
Qed.

(** Claim C2, as amended.  On every frame after the calibration the cap
    is [rows * cols / 8]; when the number of mask cells exceeds it, the
    analysis stops before the contours and the tracker is not called at
    all for that frame. *)
Theorem movement_cap_guard st sink_opens frame_index a :
  reachable findContours boundingRect st ->
  started st = true ->
  rows st * cols st < 8 * Np.count_nonzero (has_movement st a) ->
  maxMovements st = movement_cap st /\
  regions findContours boundingRect st a = Ok None /\
  out_calls (analyse findContours boundingRect sink_opens frame_index a st) = [].
Proof.
  intros Hreach Hstarted Hmany.
  pose proof (reachable_cap st Hreach Hstarted) as Hcap.
  assert (regions findContours boundingRect st a = Ok None) as Hreg.
  { unfold regions. by rewrite (proj2 (too_many_cap st _ Hcap) Hmany). }
  split; [done|]. split; [done|].
  unfold analyse.
  set (st1 := with_processed_frames _ _).
  assert (same_thresholds st st1) as Hst1 by (by repeat split).
  destruct (if debug st1 then debug_out sink_opens a st1 else Ok st1) as [st2|e] eqn:Hd;
    [|done].
  assert (same_thresholds st st2 /\ started st2 = true) as [Hst2 Hs2].
  { destruct (debug st1); [|by injection Hd as <-].
    unfold debug_out in Hd.
    destruct (fobj st1); [|destruct sink_opens]; simpl in Hd; try done;
      injection Hd as <-; by repeat split. }
  rewrite Hs2. simpl. by rewrite (regions_same findContours boundingRect st st2 a Hst2), Hreg.
Qed.
End GuardFacts.

(** ** Callbacks and the debug sink *)

(** Claim C8, as amended.  A value that breaks the invariant of its
    callback: [set_vMax], [set_maxArea] and [set_sadThreshold] leave the
    whole object as it was; [set_vMin] and [set_minArea] store 1 in place of
    the value, in the attribute and in the attached configuration, and
    change nothing else.  No callback raises. *)
Theorem rejected_updates (s : setter) (value : Z) (st : Analyser) :
  violates s value st ->
  match s with
  | SetVMax | SetMaxArea | SetSadThreshold => run_setter s value st = st
  | SetVMin => run_setter s value st = conf_store "vMin" 1 (with_vmin 1 st)
  | SetMinArea => run_setter s value st = conf_store "minArea" 1 (with_minArea 1 st)
  end.
Proof.
  destruct s; simpl; intros H.
  - unfold set_vMin. destruct (Z.ltb_spec value 1); [done | lia].
  - unfold set_vMax. destruct (Z.ltb_spec (vmin st) value); [lia | done].
  - unfold set_minArea. destruct (Z.ltb_spec value 1); [done | lia].
  - unfold set_maxArea. destruct (Z.ltb_spec (minArea st) value); [lia | done].
  - unfold set_sadThreshold.
    destruct (Z.leb_spec 0 value), (Z.ltb_spec value 16384); simpl; try done; lia.
Qed.

Section SinkFacts.
Context {Contour : Type}.
Context (findContours : Grid Z -> list Contour).
Context (boundingRect : Contour -> Rect).

(** Claim C9, as amended.  With the debug flag set and no file open, a
    failing [open] is raised out of [analyse]: the frame index and the
    frame counter are updated, nothing else of the frame is done and the
    tracker is not called. *)
Theorem sink_failure_aborts_frame frame_index a st :
  debug st = true -> fobj st = None ->
  analyse findContours boundingRect false frame_index a st
  = mkOutcome (with_processed_frames (processed_frames st + 1)
                 (with_frame frame_index st))
              [] (Some IOError).
Proof.
  intros Hdebug Hfobj. unfold analyse.
  change (debug (with_processed_frames _ _)) with (debug st). rewrite Hdebug.
  unfold debug_out.
  change (fobj (with_processed_frames _ _)) with (fobj st). by rewrite Hfobj.
Qed.
End SinkFacts.

Module Concrete.
Import Merger Examples.

(** Claim C1, at a frame where it fails.  Every [sad] of the frame is at or
    below [sadThreshold], yet the mask is true at the cell (20, 20), one
    cell counts as moving, and a region is handed to the tracker. *)
Theorem mask_ignores_sad :
  forallb (forallb (fun b => sad b <=? sadThreshold active)) lone_cell_no_sad = true /\
  has_movement active lone_cell_no_sad !! 20%nat ≫= (.!! 20%nat) = Some true /\
  Np.count_nonzero (has_movement active lone_cell_no_sad) = 1 /\
  out_calls (analyse cell_boxes id false 8 lone_cell_no_sad active)
  = [UpdateTracks 8 [(mkRect 20 20 1 1, (Np.of_int (-2), Np.of_int (-2)))]].
Proof. repeat split; vm_compute; reflexivity. Qed.

(** Claim C10.  There are contour rectangles for which the list returned
    by [removeIntersections] holds two entries that the merge rules would
    still bring together, one of them contained in the other, and for which
    [removeIntersections] applied to that list returns a different list. *)
Theorem clustering_not_idempotent :
  exists (boxes out out' : list Rect),
    removeIntersections id 30 40 400 boxes = Ok out /\
    unsettled 30 40 out /\
    (exists o n, o ∈ out /\ n ∈ out /\ o <> n /\ contained o n) /\
    removeIntersections id 30 40 400 out = Ok out' /\
    out' <> out.
Proof.
  exists bridge, [mkRect 0 0 7 4; mkRect 0 0 7 9], [mkRect 0 0 7 9].
  split; [vm_compute; reflexivity|]. split.
  { exists 0%nat, 1%nat, (mkRect 0 0 7 4), (mkRect 0 0 7 9).
    repeat split; [lia|]. right. right. vm_compute. reflexivity. }
  split.
  { exists (mkRect 0 0 7 4), (mkRect 0 0 7 9).
    repeat split; try (simpl; lia).
    - apply list_elem_of_here.
    - apply list_elem_of_further, list_elem_of_here.
    - discriminate. }
  split; [vm_compute; reflexivity | discriminate].
Qed.

(** An entry removed in mid-scan makes the scan pass over the entry after
    it, which is then never compared with the incoming rectangle. *)
Lemma passed_over_entry :
  removeIntersections id 30 40 400 passed_over
  = Ok [mkRect 15 10 1 1; mkRect 5 9 7 3] /\
  joins 30 40 (mkRect 15 10 1 1) (mkRect 9 9 3 3) = true /\
  removeIntersections id 30 40 400 [mkRect 15 10 1 1; mkRect 5 9 7 3]
  = Ok [mkRect 5 9 11 3].
Proof. repeat split; vm_compute; reflexivity. Qed.

(** Claim C2 as stated fails: above the cap the tracker gets no call, not a
    call with an empty list. *)
Lemma cap_exceeded_without_call :
  started calibrated = true /\
  (maxMovements calibrated < inject_Z (Np.count_nonzero (has_movement calibrated three_cells)))%Q /\
  out_calls (analyse cell_boxes id false 8 three_cells calibrated) = [] /\
  out_calls (analyse cell_boxes id false 8 three_cells calibrated) <> [UpdateTracks 8 []].
Proof.
  split; [reflexivity|]. split; [vm_compute; reflexivity|].
  split; [vm_compute; reflexivity|].
  assert (out_calls (analyse cell_boxes id false 8 three_cells calibrated) = []) as ->
    by (vm_compute; reflexivity).
  discriminate.
Qed.

(** Claim C4 as stated fails: the scan returns at the first entry that
    contains the incoming rectangle, so an entry after it that the extended
    rectangle overlaps on both axes stays as it is.  The list is the one
    [removeIntersections] has built from three single cells when a fourth
    arrives. *)
Lemma contained_new_stops_scan :
  removeIntersections id 30 40 40 three_first = Ok [upper; lower] /\
  [upper; lower] !! 1%nat = Some lower /\
  well_formed lower /\ well_formed fourth /\
  overlaps 30 40 lower fourth /\
  joins 30 40 lower fourth = true /\
  contained fourth upper /\
  intersects 30 40 [upper; lower] fourth = Ok [upper; lower] /\
  [upper; lower] !! 1%nat <> Some (union_box lower fourth) /\
  removeIntersections id 30 40 40 (three_first ++ [fourth]) = Ok [upper; lower].
Proof.
  split; [vm_compute; reflexivity|]. split; [reflexivity|].
  split; [unfold well_formed, lower; simpl; lia|].
  split; [unfold well_formed, fourth; simpl; lia|].
  split; [unfold overlaps, x1nn, x2nn, y1nn, y2nn, extend, lower, fourth; simpl; lia|].
  split; [vm_compute; reflexivity|].
  split; [unfold contained, fourth, upper; simpl; lia|].
  split; [vm_compute; reflexivity|].
  split; [discriminate | vm_compute; reflexivity].
Qed.

(** Claim C5, at a scan where the code departs from it.  The entry
    [enclosed_cell] lies strictly inside the incoming rectangle
    [enclosing]: the pass removes it and leaves the counter at 1 and
    [append] false.  The list is now one entry long and the iterator's
    position is 1 as well, so the loop is over: the entry [cell_nearby],
    which the partial-intersection test joins with [enclosing], is passed
    over without a test, and [enclosing] is never inserted.  Of the three
    contours only [cell_nearby] is left. *)
Theorem removal_ends_scan :
  removeIntersections id 30 40 40 [enclosed_cell; cell_nearby]
  = Ok [enclosed_cell; cell_nearby] /\
  contained enclosed_cell enclosing /\
  old_in_new enclosed_cell enclosing = true /\
  scan_body 30 40 enclosing enclosed_cell (mkScan [enclosed_cell; cell_nearby] 0 true)
  = Ok (Continue (mkScan [cell_nearby] 1 false)) /\
  new_in_old cell_nearby enclosing = false /\
  old_in_new cell_nearby enclosing = false /\
  joins 30 40 cell_nearby enclosing = true /\
  scan_run 2 30 40 enclosing 0 (mkScan [enclosed_cell; cell_nearby] 0 true)
  = Ok (Exhausted (mkScan [cell_nearby] 1 false)) /\
  intersects 30 40 [enclosed_cell; cell_nearby] enclosing = Ok [cell_nearby] /\
  removeIntersections id 30 40 40 [enclosed_cell; cell_nearby; enclosing]
  = Ok [cell_nearby].
Proof.
  split; [vm_compute; reflexivity|].
  split; [unfold contained, enclosed_cell, enclosing; simpl; lia|].
  repeat split; vm_compute; reflexivity.
Qed.

(** An entry strictly inside the incoming rectangle, alone in the list: it
    is removed and the incoming rectangle is not appended, so the list is
    left empty. *)
Lemma enclosed_pair_vanishes :
  old_in_new inner outer = true /\
  intersects 30 40 [inner] outer = Ok [] /\
  removeIntersections id 30 40 40 [inner; outer] = Ok [].
Proof. repeat split; vm_compute; reflexivity. Qed.

(** Claim C7 as stated fails: two frames that differ only in the [sad] of
    the moving cell hand the same entry to the tracker. *)
Lemma entry_does_not_carry_sad :
  Np.index2 lone_cell_90 20 20 = Ok (mkBlock (-2) (-2) 90) /\
  Np.index2 lone_cell_10 20 20 = Ok (mkBlock (-2) (-2) 10) /\
  out_calls (analyse cell_boxes id false 8 lone_cell_90 active)
  = [UpdateTracks 8 [(mkRect 20 20 1 1, (Np.of_int (-2), Np.of_int (-2)))]] /\
  out_calls (analyse cell_boxes id false 8 lone_cell_10 active)
  = out_calls (analyse cell_boxes id false 8 lone_cell_90 active).
Proof. repeat split; vm_compute; reflexivity. Qed.

(** Claim C8 as stated fails: [set_vMin] with 0 replaces vMin 5 by 1. *)
Lemma set_vMin_clamps :
  violates SetVMin 0 slow /\
  threshold_of SetVMin slow = 5 /\
  threshold_of SetVMin (run_setter SetVMin 0 slow) = 1 /\
  run_setter SetVMin 0 slow <> slow.
Proof.
  split; [simpl; lia|]. split; [reflexivity|]. split; [reflexivity|].
  intros H. apply (f_equal vmin) in H. vm_compute in H. discriminate H.
Qed.

(** Claim C9 as stated fails: the frame that yields a region with the debug
    flag off yields an exception and no call of the tracker when the flag is
    on and the file cannot be opened. *)
Lemma sink_failure_stops_analysis :
  out_calls (analyse cell_boxes id false 8 lone_cell_90 active)
  = [UpdateTracks 8 [(mkRect 20 20 1 1, (Np.of_int (-2), Np.of_int (-2)))]] /\
  out_calls (analyse cell_boxes id false 8 lone_cell_90 debugging) = [] /\
  out_raised (analyse cell_boxes id false 8 lone_cell_90 debugging) = Some IOError.
Proof. repeat split; vm_compute; reflexivity. Qed.

(** Instances of the theorems above. *)

Lemma movement_cap_guard_witness :
  maxMovements calibrated = movement_cap calibrated /\
  regions cell_boxes id calibrated three_cells = Ok None /\
  out_calls (analyse cell_boxes id false 8 three_cells calibrated) = [].
Proof.
  apply (movement_cap_guard cell_boxes id calibrated false 8 three_cells).
  - apply reach_frame, reach_new. reflexivity.
  - reflexivity.
  - vm_compute. reflexivity.
Defined.

Lemma near_rectangles_merge_witness :
  exists e : loop_end,
    scan_run (length [far; inner]) 30 40 beside 0 (mkScan [far; inner] 0 true) = Ok e /\
    intersects 30 40 [far; inner] beside = Ok (ending beside e) /\
    ending beside e !! 1%nat = Some (union_box inner beside) /\
    appends_new e = false /\
    (length (ending beside e) <= length [far; inner])%nat.
Proof.
  apply (near_rectangles_merge 30 40 [far; inner] beside 1 inner).
  - reflexivity.
  - unfold well_formed, inner. simpl. lia.
  - unfold well_formed, beside. simpl. lia.
  - repeat constructor.
  - reflexivity.
  - unfold overlaps, x1nn, x2nn, y1nn, y2nn, extend, inner, beside. simpl. lia.
Defined.

Lemma single_cell_regions_witness :
  exists (rects : list Rect) (pts : list Point),
    merged cell_boxes id active lone_cell_10 = Ok rects /\
    regions cell_boxes id active lone_cell_10 = Ok (Some pts) /\
    forall r, r ∈ rects -> rw r < 2 -> rh r < 2 ->
      exists cell,
        Np.index2 lone_cell_10 (ry r) (rx r) = Ok cell /\
        (r, (Np.of_int (mx cell), Np.of_int (my cell))) ∈ pts /\
        forall t,
          reduce active lone_cell_10 r t =
          Ok (mkTally (new_points t ++ [(r, (Np.of_int (mx cell), Np.of_int (my cell)))])
                      (if sad cell <? sadThreshold active then rejects t + 1 else rejects t)
                      (num_small t + 1) (num_large t)).
Proof.
  apply (single_cell_regions cell_boxes id active lone_cell_10).
  - split; [reflexivity|]. repeat constructor.
  - assert (cell_boxes (Np.to_mask (has_movement active lone_cell_10)) = [mkRect 20 20 1 1])
      as -> by (vm_compute; reflexivity).
    repeat constructor; simpl; lia.
  - vm_compute. reflexivity.
Defined.

Lemma rejected_updates_witness :
  run_setter SetVMax 1 active = active /\
  run_setter SetSadThreshold 16384 active = active /\
  run_setter SetMaxArea 1 active = active /\
  run_setter SetVMin 0 slow = conf_store "vMin" 1 (with_vmin 1 slow) /\
  run_setter SetMinArea (-3) active = conf_store "minArea" 1 (with_minArea 1 active).
Proof.
  split; [|split; [|split; [|split]]].
  - apply (rejected_updates SetVMax 1 active). simpl. lia.
  - apply (rejected_updates SetSadThreshold 16384 active). simpl. lia.
  - apply (rejected_updates SetMaxArea 1 active). simpl. lia.
  - apply (rejected_updates SetVMin 0 slow). simpl. lia.
  - apply (rejected_updates SetMinArea (-3) active). simpl. lia.
Defined.

Lemma sink_failure_aborts_frame_witness :
  analyse cell_boxes id false 8 lone_cell_90 debugging
  = mkOutcome (with_processed_frames (processed_frames debugging + 1)
                 (with_frame 8 debugging))
              [] (Some IOError).
Proof.
  apply (sink_failure_aborts_frame cell_boxes id 8 lone_cell_90 debugging); reflexivity.
Defined.

End Concrete.

(** * Further properties *)

Module MergerMore.
Import Merger MergerFacts.

(** [intersects] never raises, although it pops from and assigns into the
    list it iterates over, and it lengthens the list by one entry at
    most. *)
Theorem intersects_returns rows cols (rects : list Rect) n :
  exists out : list Rect,
    intersects rows cols rects n = Ok out /\
    (length out <= length rects + 1)%nat.
Proof.
  rewrite intersects_merge_scan. eexists. split; [done|].
  destruct (merge_scan_tail rows cols n rects [] true) as (tail & -> & Hlen).
  simpl. lia.
Qed.

Lemma clear_of_idle rows cols o n :
  well_formed o -> well_formed n -> clear_of rows cols o n ->
  new_in_old o n = false /\ old_in_new o n = false /\ joins rows cols o n = false.
Proof.
  destruct o as [xo yo wo ho], n as [xn yn wn hn].
  unfold well_formed, clear_of, new_in_old, old_in_new, joins,
    x1nn, x2nn, y1nn, y2nn, extend. cbn.
  intros [Hwo Hho] [Hwn Hhn] [(Hx1 & Hy1 & Hx2 & Hy2) Hgap].
  rewrite !Z.max_l, !Z.min_l by lia.
  split; [|split].
  - apply andb_false_iff. rewrite !andb_false_iff, !Z.leb_gt. lia.
  - apply andb_false_iff. rewrite !andb_false_iff, !Z.leb_gt, !Z.ltb_ge. lia.
  - destruct (_ && _ && _ && _) eqn:E.
    + rewrite !andb_true_iff, !Z.leb_le, !Z.ltb_lt in E. lia.
    + apply andb_false_iff. rewrite !Z.leb_gt. lia.
Qed.

(** A new rectangle of which every entry of the list is clear is appended,
    and the list is otherwise left as it was: no spurious merge. *)
Theorem separate_rectangle_appended rows cols (rects : list Rect) n :
  well_formed n ->
  Forall (fun o => well_formed o /\ clear_of rows cols o n) rects ->
  intersects rows cols rects n = Ok (rects ++ [n]).
Proof.
  intros Hn Hall. rewrite intersects_merge_scan.
  rewrite <- (app_nil_r rects) at 1.
  rewrite merge_scan_idle.
  - done.
  - eapply Forall_impl; [exact Hall|]. intros o [Ho Hc].
    by apply clear_of_idle.
Qed.

(** The shortcut for an old rectangle inside the extended new one never
    decides anything: for an old rectangle of non-negative size the two
    span tests alone give the same answer. *)
Theorem joins_is_span_test rows cols o n :
  0 <= rw o -> 0 <= rh o ->
  joins rows cols o n =
  (Z.max (rx o + rw o) (x2nn cols n) - Z.min (rx o) (x1nn n)
     <=? rw o + rw n + 2 * extend) &&
  (Z.max (ry o + rh o) (y2nn rows n) - Z.min (ry o) (y1nn n)
     <=? rh o + rh n + 2 * extend).
Proof.
  destruct o as [xo yo wo ho], n as [xn yn wn hn].
  unfold joins, x1nn, x2nn, y1nn, y2nn, extend. cbn. intros Hwo Hho.
  destruct (_ && _ && _ && _) eqn:E; [|done].
  rewrite !andb_true_iff, !Z.leb_le, !Z.ltb_lt in E.
  symmetry. apply andb_true_iff. split; apply Z.leb_le; lia.
Qed.

(** Near the left or the top border of the grid the clamp widens the reach
    of the join: a new rectangle that starts within the margin of the
    border joins an old one as far as twice the margin minus its own
    distance from the border, instead of the margin. *)
Theorem border_widens_reach rows cols o n :
  well_formed o -> well_formed n ->
  (0 <= rx n <= extend ->
   rx n + rw n <= rx o -> rx o - (rx n + rw n) <= 2 * extend - rx n ->
   ry o <= y2nn rows n -> y1nn n <= ry o + rh o ->
   joins rows cols o n = true) /\
  (0 <= ry n <= extend ->
   ry n + rh n <= ry o -> ry o - (ry n + rh n) <= 2 * extend - ry n ->
   rx o <= x2nn cols n -> x1nn n <= rx o + rw o ->
   joins rows cols o n = true).
Proof.
  intros Ho Hn.
  destruct o as [xo yo wo ho], n as [xn yn wn hn].
  destruct Ho as [Hwo Hho], Hn as [Hwn Hhn].
  unfold joins, x1nn, x2nn, y1nn, y2nn, extend in *. cbn in *.
  split; intros H1 H2 H3 H4 H5;
    (destruct (_ && _ && _ && _); [done|]);
    apply andb_true_iff; split; apply Z.leb_le; lia.
Qed.

(** The entries the scan has passed and those it puts after them are the
    new rectangle or contain an entry of the list passed in. *)
Lemma merge_scan_grows rows cols n (rects rest : list Rect) :
  forall (done : list Rect) (append : bool),
    Forall (fun r => r = n \/ exists o, o ∈ rects /\ contained o r) done ->
    Forall (fun r => r ∈ rects) rest ->
    Forall (fun r => r = n \/ exists o, o ∈ rects /\ contained o r)
           (merge_scan rows cols n done rest append).
Proof.
  assert (forall r, r ∈ rects -> r = n \/ exists o, o ∈ rects /\ contained o r) as Hself.
  { intros r Hr. right. exists r. split; [done|]. unfold contained. lia. }
  induction rest as [|o rest IH1 IH2] using scan_ind; intros done append Hd Hr.
  - simpl. destruct append; [|done]. apply Forall_app. split; [done|].
    constructor; [by left | constructor].
  - cbn [merge_scan]. inversion Hr as [|? ? Ho Hr']; subst.
    destruct (new_in_old o n).
    { apply Forall_app. split; [done|]. eapply Forall_impl; [exact Hr|]. exact Hself. }
    destruct (old_in_new o n).
    { destruct rest as [|p rest'']; [done|].
      inversion Hr' as [|? ? Hp Hr'']; subst.
      apply (IH2 p rest'' eq_refl); [|done].
      apply Forall_app. split; [done|]. constructor; [by apply Hself | constructor]. }
    destruct (joins rows cols o n).
    + apply IH1; [|done]. apply Forall_app. split; [done|].
      constructor; [|constructor]. right. exists o. split; [done|].
      destruct o as [xo yo wo ho], n as [xn yn wn hn].
      unfold contained, union_box. cbn. lia.
    + apply IH1; [|done]. apply Forall_app. split; [done|].
      constructor; [by apply Hself | constructor].
Qed.

(** [intersects] invents nothing and shrinks nothing: every entry of the
    returned list is the new rectangle or contains an entry of the list
    passed in. *)
Theorem intersects_only_grows rows cols (rects out : list Rect) n :
  intersects rows cols rects n = Ok out ->
  Forall (fun r => r = n \/ exists o, o ∈ rects /\ contained o r) out.
Proof.
  rewrite intersects_merge_scan. intros [= <-].
  apply merge_scan_grows; [constructor|].
  by apply Forall_forall.
Qed.

Section RemoveIntersectionsMore.
Context {Contour : Type} (boundingRect : Contour -> Rect).

Lemma removeIntersections_from_separate rows cols maxArea contours :
  forall rects : list Rect,
    Forall well_formed rects ->
    Forall (fun cnt => well_formed (boundingRect cnt) /\
                       area (boundingRect cnt) <= maxArea) contours ->
    separate rows cols rects (map boundingRect contours) ->
    removeIntersections_from boundingRect rows cols maxArea contours rects
    = Ok (rects ++ map boundingRect contours).
Proof.
  induction contours as [|cnt contours IH]; intros rects Hwf Hc Hsep.
  - simpl. by rewrite app_nil_r.
  - inversion Hc as [|? ? [Hn Harea] Hc']; subst.
    destruct Hsep as [Hclear Hsep].
    cbn [removeIntersections_from map]. unfold area in Harea.
    destruct (Z.ltb_spec maxArea (rw (boundingRect cnt) * rh (boundingRect cnt)));
      [lia|].
    assert (Forall well_formed (rects ++ [boundingRect cnt])) as Hwf'.
    { apply Forall_app. split; [done | by constructor]. }
    assert (removeIntersections_from boundingRect rows cols maxArea contours
              (rects ++ [boundingRect cnt])
            = Ok (rects ++ boundingRect cnt :: map boundingRect contours)) as Hrest.
    { rewrite (IH _ Hwf' Hc' Hsep). by rewrite <- app_assoc. }
    destruct (0 <? length rects)%nat; [|exact Hrest].
    rewrite intersects_merge_scan.
    rewrite <- (app_nil_r rects) at 1. rewrite merge_scan_idle.
    + exact Hrest.
    + apply Forall_forall. intros o Ho. rewrite Forall_forall in Hwf, Hclear.
      apply clear_of_idle; auto.
Qed.

(** Contours whose bounding rectangles fit [maxArea] and are clear of each
    other come out as they went in: as many rectangles, the same ones, in
    the same order. *)
Theorem separate_contours_unchanged rows cols maxArea (contours : list Contour) :
  Forall (fun cnt => well_formed (boundingRect cnt) /\
                     area (boundingRect cnt) <= maxArea) contours ->
  separate rows cols [] (map boundingRect contours) ->
  removeIntersections boundingRect rows cols maxArea contours
  = Ok (map boundingRect contours).
Proof.
  intros Hc Hsep. unfold removeIntersections.
  apply (removeIntersections_from_separate rows cols maxArea contours []);
    [constructor | exact Hc | exact Hsep].
Qed.

Lemma removeIntersections_from_length rows cols maxArea contours :
  forall rects : list Rect,
    exists out : list Rect,
      removeIntersections_from boundingRect rows cols maxArea contours rects = Ok out /\
      (length out <= length rects +
         length (filter (fun cnt => (area (boundingRect cnt) <= maxArea)%Z) contours))%nat.
Proof.
  induction contours as [|cnt contours IH]; intros rects.
  - exists rects. split; [done | simpl; lia].
  - cbn [removeIntersections_from]. unfold area. rewrite filter_cons.
    destruct (Z.ltb_spec maxArea (rw (boundingRect cnt) * rh (boundingRect cnt))).
    + rewrite decide_False by (unfold area; lia). apply IH.
    + rewrite decide_True by (unfold area; lia).
      destruct (0 <? length rects)%nat.
      * rewrite intersects_merge_scan.
        destruct (merge_scan_tail rows cols (boundingRect cnt) rects [] true)
          as (mid & -> & Hmid).
        cbn [bind app]. destruct (IH mid) as (out & -> & Hout).
        exists out. split; [done|]. simpl. unfold area in Hout. lia.
      * destruct (IH (rects ++ [boundingRect cnt])) as (out & -> & Hout).
        exists out. split; [done|]. rewrite length_app in Hout. simpl in *.
        unfold area in Hout. lia.
Qed.

(** [removeIntersections] never raises and returns at most as many
    rectangles as there are contours whose bounding rectangle fits
    [maxArea]; with no such contour it returns the empty list. *)
Theorem removeIntersections_count rows cols maxArea (contours : list Contour) :
  exists out : list Rect,
    removeIntersections boundingRect rows cols maxArea contours = Ok out /\
    (length out <=
       length (filter (fun cnt => (area (boundingRect cnt) <= maxArea)%Z) contours))%nat.
Proof.
  destruct (removeIntersections_from_length rows cols maxArea contours [])
    as (out & Hout & Hlen).
  exists out. split; [exact Hout | simpl in Hlen; lia].
Qed.

(** Bounding rectangles of positive size inside the grid give merged
    rectangles of positive size inside the grid. *)
Theorem merged_inside_grid rows cols maxArea (contours : list Contour) :
  Forall (fun cnt => well_formed (boundingRect cnt) /\
                     in_grid rows cols (boundingRect cnt)) contours ->
  exists out : list Rect,
    removeIntersections boundingRect rows cols maxArea contours = Ok out /\
    Forall (fun r => well_formed r /\ in_grid rows cols r) out.
Proof.
  intros Hc.
  destruct (removeIntersections_Forall boundingRect
              (fun r => well_formed r /\ in_grid rows cols r /\ True)
              rows cols maxArea contours) as (out & Hout & HP).
  - apply union_closed_grid.
  - eapply Forall_impl; [exact Hc|]. intros cnt [Hw Hin] _. done.
  - exists out. split; [exact Hout|].
    eapply Forall_impl; [exact HP|]. intros r (? & ? & _). done.
Qed.
End RemoveIntersectionsMore.

End MergerMore.

(** ** The analyser over frames *)

(** Closes a goal that compares the outcome of [regions] in two states
    with the same thresholds. *)
Ltac same_regions :=
  match goal with
  | |- out_calls (match regions _ _ ?s1 _ with _ => _ end)
       = out_calls (match regions _ _ ?s2 _ with _ => _ end) /\ _ =>
      rewrite (regions_same _ _ s2 s1) by (by repeat split);
      destruct (regions _ _ s2 _) as [[?|]|]; done
  end.

Section AnalyseMore.
Context {Contour : Type}.
Context (findContours : Grid Z -> list Contour).
Context (boundingRect : Contour -> Rect).

(** Whatever a call of [analyse] does, it leaves the thresholds, the grid
    size, the attached configuration and the debug flag alone, stores the
    frame index, and counts the frame: also on the calibrating frame, on a
    frame dropped by the movement guard and on a frame that raises. *)
Theorem analyse_keeps_configuration sink_opens frame_index a st :
  let st' := out_state (analyse findContours boundingRect sink_opens frame_index a st) in
  rows st' = rows st /\ cols st' = cols st /\ config st' = config st /\
  minArea st' = minArea st /\ maxArea st' = maxArea st /\
  sadThreshold st' = sadThreshold st /\ vmin st' = vmin st /\ vmax st' = vmax st /\
  debug st' = debug st /\
  frame st' = frame_index /\ processed_frames st' = processed_frames st + 1.
Proof.
  destruct st as [rows0 cols0 config0 minArea0 maxArea0 sad0 started0 vmin0 vmax0
                  frame0 processed0 cap0 debug0 fobj0].
  unfold analyse. cbn.
  destruct debug0; [unfold debug_out; cbn; destruct fobj0; [|destruct sink_opens]|];
    cbn; try (by repeat split);
    (destruct started0; cbn; [destruct (regions _ _ _ a) as [[pts|]|]|]); by repeat split.
Qed.

(** The first frame only calibrates: whatever it holds, the tracker is
    told the sizes and nothing else, and the cap becomes rows * cols / 8. *)
Theorem first_frame_calibrates sink_opens frame_index a st :
  started st = false ->
  out_raised (analyse findContours boundingRect sink_opens frame_index a st) = None ->
  let out := analyse findContours boundingRect sink_opens frame_index a st in
  out_calls out = [SetupSizes (rows st) (cols st - 1)] /\
  started (out_state out) = true /\
  maxMovements (out_state out) = movement_cap st.
Proof.
  destruct st as [rows0 cols0 config0 minArea0 maxArea0 sad0 started0 vmin0 vmax0
                  frame0 processed0 cap0 debug0 fobj0].
  cbn. intros ->. unfold analyse. cbn.
  destruct debug0; [unfold debug_out; cbn; destruct fobj0; [|destruct sink_opens]|];
    cbn; try done.
Qed.

(** After the calibration the object stays calibrated with the cap it has,
    the sizes are never sent again, and a frame makes at most one call of
    the tracker, which carries the index of that frame. *)
Theorem calibrated_stays_calibrated sink_opens frame_index a st :
  started st = true ->
  let out := analyse findContours boundingRect sink_opens frame_index a st in
  started (out_state out) = true /\
  maxMovements (out_state out) = maxMovements st /\
  (out_calls out = [] \/ exists pts, out_calls out = [UpdateTracks frame_index pts]).
Proof.
  destruct st as [rows0 cols0 config0 minArea0 maxArea0 sad0 started0 vmin0 vmax0
                  frame0 processed0 cap0 debug0 fobj0].
  cbn. intros ->. unfold analyse. cbn.
  destruct debug0; [unfold debug_out; cbn; destruct fobj0; [|destruct sink_opens]|];
    cbn; try (by repeat split; left);
    (destruct (regions _ _ _ a) as [[pts|]|]; cbn;
     repeat split; try (by left); right; by exists pts).
Qed.

(** While the debug flag is set and the file is open or can be opened,
    every frame handed to [analyse] is written to the file, after what was
    written before; with the flag off the file is left alone. *)
Theorem debug_frames_recorded sink_opens frame_index a st :
  let st' := out_state (analyse findContours boundingRect sink_opens frame_index a st) in
  (debug st = true -> (fobj st = None -> sink_opens = true) ->
   fobj st' = Some (default [] (fobj st) ++ [a])) /\
  (debug st = false -> fobj st' = fobj st).
Proof.
  destruct st as [rows0 cols0 config0 minArea0 maxArea0 sad0 started0 vmin0 vmax0
                  frame0 processed0 cap0 debug0 fobj0].
  cbn. split.
  - intros -> Hopen. unfold analyse. cbn. unfold debug_out. cbn.
    destruct fobj0 as [written|]; [|rewrite (Hopen eq_refl)]; cbn;
      (destruct started0; cbn; [destruct (regions _ _ _ a) as [[pts|]|]|]); done.
  - intros ->. unfold analyse. cbn.
    destruct started0; cbn; [destruct (regions _ _ _ a) as [[pts|]|]|]; done.
Qed.

(** Switching the debug flag off and on again starts the file anew: the
    next frame is the only one in it. *)
Theorem debug_restart_truncates frame_index a st :
  fobj (out_state (analyse findContours boundingRect true frame_index a
                     (set_debug true (set_debug false st))))
  = Some [a].
Proof.
  destruct st as [rows0 cols0 config0 minArea0 maxArea0 sad0 started0 vmin0 vmax0
                  frame0 processed0 cap0 debug0 fobj0].
  unfold analyse, set_debug. cbn. unfold debug_out. cbn.
  destruct started0; cbn; [destruct (regions _ _ _ a) as [[pts|]|]|]; done.
Qed.

(** A frame cannot tell apart two states that agree on the thresholds, the
    cap, the flags and on whether the debug file is open. *)
Lemma analyse_same_run sink_opens frame_index a st st' :
  same_run st st' ->
  out_calls (analyse findContours boundingRect sink_opens frame_index a st')
  = out_calls (analyse findContours boundingRect sink_opens frame_index a st) /\
  out_raised (analyse findContours boundingRect sink_opens frame_index a st')
  = out_raised (analyse findContours boundingRect sink_opens frame_index a st).
Proof.
  destruct st as [rows0 cols0 config0 minArea0 maxArea0 sad0 started0 vmin0 vmax0
                  frame0 processed0 cap0 debug0 fobj0].
  destruct st' as [rows1 cols1 config1 minArea1 maxArea1 sad1 started1 vmin1 vmax1
                   frame1 processed1 cap1 debug1 fobj1].
  unfold same_run, same_thresholds. cbn.
  intros ((-> & -> & -> & -> & -> & -> & ->) & -> & -> & Hfobj).
  assert (fobj1 = None <-> fobj0 = None) as [H1 H2] by exact Hfobj.
  unfold analyse. cbn.
  destruct debug0; cbn.
  - unfold debug_out. cbn.
    destruct fobj0 as [w0|], fobj1 as [w1|]; cbn;
      try (by specialize (H1 eq_refl)); try (by specialize (H2 eq_refl));
      try destruct sink_opens; cbn; try done;
      (destruct started0; cbn; [|done]); same_regions.
  - destruct started0; cbn; [|done]. same_regions.
Qed.

(** A debug file that cannot be opened costs the frame on which it fails
    and nothing more: the next frame is treated as if the failed call had
    never been made (and calibrates, if the failed frame was the first). *)
Theorem sink_failure_loses_one_frame sink_opens f1 a1 f2 a2 st :
  debug st = true -> fobj st = None ->
  let st1 := out_state (analyse findContours boundingRect false f1 a1 st) in
  out_calls (analyse findContours boundingRect sink_opens f2 a2 st1)
  = out_calls (analyse findContours boundingRect sink_opens f2 a2 st) /\
  out_raised (analyse findContours boundingRect sink_opens f2 a2 st1)
  = out_raised (analyse findContours boundingRect sink_opens f2 a2 st).
Proof.
  intros Hdebug Hfobj st1. apply analyse_same_run.
  subst st1. unfold analyse.
  change (debug (with_processed_frames _ _)) with (debug st). rewrite Hdebug.
  unfold debug_out.
  change (fobj (with_processed_frames _ _)) with (fobj st). rewrite Hfobj. cbn.
  by repeat split.
Qed.

(** [minArea] plays no part in the analysis of a frame: whatever
    [set_minArea] stores, the calls of the tracker and the exception, if
    any, are the same. *)
Theorem minArea_is_unused value sink_opens frame_index a st :
  out_calls (analyse findContours boundingRect sink_opens frame_index a
               (set_minArea value st))
  = out_calls (analyse findContours boundingRect sink_opens frame_index a st) /\
  out_raised (analyse findContours boundingRect sink_opens frame_index a
                (set_minArea value st))
  = out_raised (analyse findContours boundingRect sink_opens frame_index a st).
Proof.
  apply analyse_same_run. unfold set_minArea, conf_store.
  destruct st as [rows0 cols0 config0 minArea0 maxArea0 sad0 started0 vmin0 vmax0
                  frame0 processed0 cap0 debug0 fobj0].
  cbn. destruct config0; by repeat split.
Qed.

(** With the calibrated cap, a frame is dropped by the movement guard
    exactly when more than an eighth of the cells move: a frame with
    exactly rows * cols / 8 moving cells is still analysed. *)
Theorem guard_is_strict st a :
  maxMovements st = movement_cap st ->
  regions findContours boundingRect st a = Ok None <->
  rows st * cols st < 8 * Np.count_nonzero (has_movement st a).
Proof.
  intros Hcap. rewrite <- (too_many_cap st _ Hcap). unfold regions.
  destruct (too_many _ st); [done|].
  split; [|done].
  destruct (Merger.removeIntersections _ _ _ _ _) as [rects|]; cbn; [|done].
  destruct (reduce_all st a rects _); cbn; done.
Qed.

(** The entries handed to the tracker carry merged rectangles, unaltered
    and in the order of the merged list. *)
Theorem emitted_in_order st a pts rects :
  regions findContours boundingRect st a = Ok (Some pts) ->
  merged findContours boundingRect st a = Ok rects ->
  sublist (map fst pts) rects.
Proof.
  intros Hreg Hm.
  destruct (regions_points _ _ _ _ _ Hreg) as (rects' & Hm' & ->).
  rewrite Hm in Hm'. injection Hm' as <-. clear Hreg Hm.
  induction rects as [|r rects IH]; [constructor|].
  cbn [omap list_omap]. destruct (emitted st a r) as [p|] eqn:E.
  - apply emitted_rect in E as [<- _]. cbn. by constructor.
  - by constructor.
Qed.

(** On a frame of the right shape whose contours have bounding rectangles
    of positive size inside the grid, and which is neither the first frame
    nor stopped by the guard or by the debug file, [analyse] raises nothing
    and calls the tracker exactly once, with the index of the frame. *)
Theorem ordinary_frame_delivered sink_opens frame_index a st :
  started st = true ->
  (debug st = true -> fobj st = None -> sink_opens = true) ->
  shaped (rows st) (cols st) a ->
  Forall (fun cnt => well_formed (boundingRect cnt) /\
                     in_grid (rows st) (cols st) (boundingRect cnt))
         (findContours (Np.to_mask (has_movement st a))) ->
  too_many (Np.count_nonzero (has_movement st a)) st = false ->
  exists pts,
    out_calls (analyse findContours boundingRect sink_opens frame_index a st)
    = [UpdateTracks frame_index pts] /\
    out_raised (analyse findContours boundingRect sink_opens frame_index a st) = None.
Proof.
  intros Hstarted Hsink Hshape Hc Hcap.
  assert (exists pts, regions findContours boundingRect st a = Ok (Some pts))
    as [pts Hreg].
  { destruct (removeIntersections_Forall boundingRect
                (fun r => well_formed r /\ in_grid (rows st) (cols st) r /\ True)
                (rows st) (cols st) (maxArea st)
                (findContours (Np.to_mask (has_movement st a))))
      as (rects & Hm & HP).
    - apply union_closed_grid.
    - eapply Forall_impl; [exact Hc|]. intros cnt [Hw Hin] _. done.
    - destruct (reduce_all_in_grid st a rects Hshape) with (t := mkTally [] 0 0 0)
        as [t Ht].
      { eapply Forall_impl; [exact HP|]. intros r (? & ? & _). done. }
      exists (new_points t). unfold regions. rewrite Hcap, Hm. cbn [bind].
      by rewrite Ht. }
  exists pts.
  assert (forall s, same_thresholds st s ->
            regions findContours boundingRect s a = Ok (Some pts)) as Hany.
  { intros s Hs. by rewrite (regions_same findContours boundingRect st s a Hs). }
  clear Hreg Hshape Hc Hcap.
  destruct st as [rows0 cols0 config0 minArea0 maxArea0 sad0 started0 vmin0 vmax0
                  frame0 processed0 cap0 debug0 fobj0].
  cbn in Hstarted, Hsink. subst started0.
  unfold analyse. cbn.
  destruct debug0; cbn.
  - unfold debug_out. cbn.
    destruct fobj0 as [w|]; [|rewrite (Hsink eq_refl eq_refl)]; cbn;
      rewrite Hany by (by repeat split); done.
  - rewrite Hany by (by repeat split). done.
Qed.
End AnalyseMore.

(** ** The mask and the arrays *)

Module NpMore.

(** The mask looks at the vectors and at vMin and vMax only: frames with
    the same vectors give the same mask whatever their [sad] values and
    whatever sadThreshold is. *)
Theorem mask_blind_to_sad st st' (a a' : Grid MotionBlock) :
  vmin st' = vmin st -> vmax st' = vmax st ->
  Np.field mx a' = Np.field mx a -> Np.field my a' = Np.field my a ->
  has_movement st' a' = has_movement st a.
Proof.
  intros Hvmin Hvmax Hx Hy.
  assert (forall s (g : Grid MotionBlock),
            Np.field (moving s) g =
            Np.map2 (fun x y => (vmin s <? Np.add8 (Np.abs8 x) (Np.abs8 y)) &&
                                (Np.add8 (Np.abs8 x) (Np.abs8 y) <? vmax s))
                    (Np.field mx g) (Np.field my g)) as Hband.
  { intros s g. by rewrite map2_field. }
  rewrite !has_movement_cells, !Hband, Hx, Hy, Hvmin, Hvmax. done.
Qed.

(** The magnitude is |vx| + |vy| as long as that fits a signed byte; a
    larger sum wraps around to zero or below, so that the fastest vectors
    never count as movement when vMin is not negative. *)
Theorem magnitude_wraps st (b : MotionBlock) :
  -128 <= mx b <= 127 -> -128 <= my b <= 127 ->
  (Z.abs (mx b) + Z.abs (my b) <= 127 ->
   cell_mag b = Z.abs (mx b) + Z.abs (my b)) /\
  (127 < Z.abs (mx b) + Z.abs (my b) ->
   cell_mag b <= 0 /\ (0 <= vmin st -> moving st b = false)).
Proof.
  intros Hx Hy. split; [apply cell_mag_exact|].
  intros Hbig.
  assert (cell_mag b <= 0) as Hneg.
  { unfold cell_mag, Np.add8, Np.abs8, Np.wrap8.
    Z.div_mod_to_equations. lia. }
  split; [exact Hneg|]. intros Hvmin. unfold moving.
  apply andb_false_iff. left. apply Z.ltb_ge. lia.
Qed.

Lemma slice_length {A : Type} (l : list A) (lo hi : Z) :
  0 <= lo <= hi -> hi <= Z.of_nat (length l) ->
  length (Np.slice l lo hi) = Z.to_nat (hi - lo).
Proof.
  intros Hlo Hhi. unfold Np.slice, Np.slice_bound.
  destruct (Z.ltb_spec lo 0); [lia|]. destruct (Z.ltb_spec hi 0); [lia|].
  rewrite !Z.min_l by lia. rewrite length_take, length_drop. lia.
Qed.

Lemma slice_Forall {A : Type} (P : A -> Prop) (l : list A) (lo hi : Z) :
  Forall P l -> Forall P (Np.slice l lo hi).
Proof. intros H. unfold Np.slice. by apply Forall_take, Forall_drop. Qed.

Lemma length_concat_uniform {A : Type} (g : list (list A)) (k : nat) :
  Forall (fun row => length row = k) g -> length (concat g) = (length g * k)%nat.
Proof.
  induction 1 as [|row g Hrow _ IH]; simpl; [done|].
  rewrite length_app, Hrow, IH. lia.
Qed.

(** The statistics of a rectangle inside the grid are taken over exactly
    its w * h cells, and for a rectangle of positive size the variance and
    the two means are numbers, not nan. *)
Theorem region_cells_count rows cols (a : Grid MotionBlock) (r : Rect) :
  shaped rows cols a -> in_grid rows cols r -> well_formed r ->
  length (cells_of a r) = Z.to_nat (rw r * rh r) /\
  exists v qx qy,
    Np.var (map sad (cells_of a r)) = Np.Fin v /\
    Np.mean (map mx (cells_of a r)) = Np.Fin qx /\
    Np.mean (map my (cells_of a r)) = Np.Fin qy.
Proof.
  intros [Hrows Hcols] (Hx & Hy & Hx' & Hy') [Hw Hh].
  assert (length (cells_of a r) = Z.to_nat (rw r * rh r)) as Hlen.
  { unfold cells_of, Np.slice2.
    rewrite (length_concat_uniform _ (Z.to_nat (rw r))).
    - rewrite length_map, slice_length by lia.
      replace (ry r + rh r - ry r) with (rh r) by lia.
      rewrite <- Z2Nat.inj_mul by lia. f_equal. lia.
    - apply Forall_map. eapply Forall_impl; [apply slice_Forall, Hcols|].
      intros row Hrow. cbv beta in Hrow. cbv beta.
      rewrite slice_length by lia. f_equal. lia. }
  split; [exact Hlen|].
  assert (0 < rw r * rh r) as Hpos by (apply Z.mul_pos_pos; lia).
  destruct (cells_of a r) as [|c cells]; [simpl in Hlen; lia|].
  simpl. by eexists _, _, _.
Qed.

Lemma count_nonzero_none {A : Type} (f : A -> bool) (a : Grid A) :
  (forall x, f x = false) -> Np.count_nonzero (Np.field f a) = 0.
Proof.
  intros Hf. unfold Np.count_nonzero, Np.field.
  induction a as [|row a IH]; [done|].
  simpl. rewrite filter_app, length_app.
  assert (filter (fun b : bool => b = true) (map f row) = []) as ->.
  { induction row as [|x row IHr]; [done|].
    simpl. rewrite filter_cons, decide_False by (rewrite Hf; done). exact IHr. }
  simpl. simpl in IH. lia.
Qed.

(** [set_vMin] does not look at vMax: a value at or above vMax is stored,
    and from then on no cell of any frame counts as moving. *)
Theorem vmin_beyond_vmax_silences value st (a : Grid MotionBlock) :
  vmax st <= value ->
  vmin (set_vMin value st) = Z.max value 1 /\
  vmax (set_vMin value st) = vmax st /\
  Np.count_nonzero (has_movement (set_vMin value st) a) = 0.
Proof.
  intros Hle.
  assert (vmin (set_vMin value st) = Z.max value 1 /\
          vmax (set_vMin value st) = vmax st) as [Hvmin Hvmax].
  { unfold set_vMin, conf_store.
    destruct (Z.ltb_spec value 1); cbn; destruct (config st); cbn; split; try done; lia. }
  split; [exact Hvmin|]. split; [exact Hvmax|].
  rewrite has_movement_cells. apply count_nonzero_none.
  intros b. unfold moving. rewrite Hvmin, Hvmax.
  destruct (Z.ltb_spec (Z.max value 1) (cell_mag b)); [|done].
  simpl. apply Z.ltb_ge. lia.
Qed.

End NpMore.

(** ** The thresholds *)

(** For a single cell the loop body succeeds or raises, and appends the
    same entry, whatever sadThreshold is. *)
Lemma reduce_single_blind st st' a r t t' :
  maxArea st' = maxArea st -> single_cell r = true ->
  new_points t' = new_points t ->
  match reduce st a r t, reduce st' a r t' with
  | Ok u, Ok u' => new_points u' = new_points u
  | Raise _, Raise _ => True
  | _, _ => False
  end.
Proof.
  intros Hmax Hs Hpts. unfold reduce. rewrite Hmax, Hs.
  destruct (maxArea st <? rw r * rh r); [exact Hpts|].
  destruct (Np.index2 a (ry r) (rx r)); cbn; [|done]. by rewrite Hpts.
Qed.

Lemma reduce_all_single_blind st st' a rects :
  maxArea st' = maxArea st ->
  Forall (fun r => single_cell r = true) rects ->
  forall t t' u,
    new_points t' = new_points t ->
    reduce_all st a rects t = Ok u ->
    exists u', reduce_all st' a rects t' = Ok u' /\ new_points u' = new_points u.
Proof.
  intros Hmax. induction 1 as [|r rects Hs _ IH]; intros t t' u Hpts; simpl.
  - intros [= <-]. by exists t'.
  - pose proof (reduce_single_blind st st' a r t t' Hmax Hs Hpts) as Hstep.
    destruct (reduce st a r t) as [t1|]; [|done].
    destruct (reduce st' a r t') as [t1'|]; [|done].
    cbn. by apply IH.
Qed.

Section ThresholdsMore.
Context {Contour : Type}.
Context (findContours : Grid Z -> list Contour).
Context (boundingRect : Contour -> Rect).

(** sadThreshold acts through the variance test of the rectangles of
    several cells only: on a frame whose merged rectangles are all single
    cells, no value given to [set_sadThreshold] changes the regions. *)
Theorem sadThreshold_only_in_variance_test value st a pts rects :
  regions findContours boundingRect st a = Ok (Some pts) ->
  merged findContours boundingRect st a = Ok rects ->
  Forall (fun r => single_cell r = true) rects ->
  regions findContours boundingRect (set_sadThreshold value st) a = Ok (Some pts).
Proof.
  intros Hreg Hm Hsingle.
  set (st' := set_sadThreshold value st).
  assert (rows st' = rows st /\ cols st' = cols st /\ maxArea st' = maxArea st /\
          vmin st' = vmin st /\ vmax st' = vmax st /\
          maxMovements st' = maxMovements st) as (Hr & Hc & Hmax & Hvmin & Hvmax & Hcap).
  { unfold st', set_sadThreshold, conf_store.
    destruct (_ && _); [|done]. cbn. by destruct (config st). }
  assert (has_movement st' a = has_movement st a) as Hmask.
  { rewrite !has_movement_cells. unfold Np.field. apply map_ext. intros row.
    apply map_ext. intros b. unfold moving. by rewrite Hvmin, Hvmax. }
  unfold regions in *. unfold merged in Hm. rewrite Hmask.
  unfold too_many in *. rewrite Hcap, Hr, Hc, Hmax.
  destruct (negb _); [done|].
  rewrite Hm in *. cbn [bind] in *.
  destruct (reduce_all st a rects _) as [u|] eqn:Hu; cbn in Hreg; [|done].
  injection Hreg as <-.
  destruct (reduce_all_single_blind st st' a rects Hmax Hsingle _ (mkTally [] 0 0 0) u
              eq_refl Hu) as (u' & -> & Hpts).
  cbn. by rewrite Hpts.
Qed.
End ThresholdsMore.

(** A value that keeps the invariant of its callback is stored: in the
    attribute, and under the callback's key of the attached
    configuration. *)
Theorem accepted_updates (s : setter) (value : Z) (st : Analyser) :
  ~ violates s value st ->
  threshold_of s (run_setter s value st) = value /\
  config (run_setter s value st) = (fun conf => <[key_of s := value]> conf) <$> config st.
Proof.
  destruct st as [rows0 cols0 config0 minArea0 maxArea0 sad0 started0 vmin0 vmax0
                  frame0 processed0 cap0 debug0 fobj0].
  destruct s; cbn; intros H;
    unfold set_vMin, set_vMax, set_minArea, set_maxArea, set_sadThreshold, conf_store; cbn.
  - destruct (Z.ltb_spec value 1); [lia|]. by destruct config0.
  - destruct (Z.ltb_spec vmin0 value); [|lia]. by destruct config0.
  - destruct (Z.ltb_spec value 1); [lia|]. by destruct config0.
  - destruct (Z.ltb_spec minArea0 value); [|lia]. by destruct config0.
  - destruct (Z.leb_spec 0 value), (Z.ltb_spec value 16384); cbn; try lia.
    by destruct config0.
Qed.

(** A callback changes its own threshold and its own configuration key and
    nothing else: the other thresholds, the other keys, the calibration,
    the cap, the debug flag and file stay, and no configuration is
    attached where there was none. *)
Theorem setters_touch_own_field (s : setter) (value : Z) (st : Analyser) :
  let st' := run_setter s value st in
  (forall s', s' <> s -> threshold_of s' st' = threshold_of s' st) /\
  (forall k, k <> key_of s -> config st' ≫= (.!! k) = config st ≫= (.!! k)) /\
  (config st' = None <-> config st = None) /\
  rows st' = rows st /\ cols st' = cols st /\ started st' = started st /\
  maxMovements st' = maxMovements st /\ debug st' = debug st /\ fobj st' = fobj st /\
  frame st' = frame st /\ processed_frames st' = processed_frames st.
Proof.
  destruct st as [rows0 cols0 config0 minArea0 maxArea0 sad0 started0 vmin0 vmax0
                  frame0 processed0 cap0 debug0 fobj0].
  destruct s; cbn;
    unfold set_vMin, set_vMax, set_minArea, set_maxArea, set_sadThreshold, conf_store; cbn;
    repeat match goal with |- context [if ?c then _ else _] => destruct c end;
    cbn; destruct config0 as [conf|]; cbn;
    (split; [intros s' Hs'; by destruct s' | ]);
    (split; [intros k Hk; try done; by rewrite lookup_insert_ne | ]);
    by repeat split.
Qed.

(** The order and range invariants that the callbacks do keep: vMax stays
    above vMin under [set_vMax], maxArea above minArea under
    [set_maxArea], sadThreshold within 0..16383 under [set_sadThreshold],
    and vMin and minArea are at least 1 after their own callbacks. *)
Theorem setters_keep_order (value : Z) (st : Analyser) :
  (vmin st < vmax st -> vmin (set_vMax value st) < vmax (set_vMax value st)) /\
  (minArea st < maxArea st ->
   minArea (set_maxArea value st) < maxArea (set_maxArea value st)) /\
  (0 <= sadThreshold st <= 16383 ->
   0 <= sadThreshold (set_sadThreshold value st) <= 16383) /\
  1 <= vmin (set_vMin value st) /\
  1 <= minArea (set_minArea value st).
Proof.
  destruct st as [rows0 cols0 config0 minArea0 maxArea0 sad0 started0 vmin0 vmax0
                  frame0 processed0 cap0 debug0 fobj0].
  unfold set_vMin, set_vMax, set_minArea, set_maxArea, set_sadThreshold, conf_store; cbn.
  repeat split.
  - destruct (Z.ltb_spec vmin0 value); destruct config0; cbn; lia.
  - destruct (Z.ltb_spec minArea0 value); destruct config0; cbn; lia.
  - destruct (Z.leb_spec 0 value), (Z.ltb_spec value 16384); destruct config0; cbn; lia.
  - destruct (Z.leb_spec 0 value), (Z.ltb_spec value 16384); destruct config0; cbn; lia.
  - destruct (Z.ltb_spec value 1); destruct config0; cbn; lia.
  - destruct (Z.ltb_spec value 1); destruct config0; cbn; lia.
Qed.

(** Construction needs the seven keys it reads: with all of them it gives
    an uncalibrated object with the thresholds of the configuration,
    minArea 1 and the cap 100; with any of them missing it raises
    [KeyError]. *)
Theorem init_needs_keys rows cols (conf : gmap string Z) :
  (Forall (fun k => is_Some (conf !! k)) init_keys ->
   exists st,
     init rows cols conf = Ok st /\
     started st = false /\ minArea st = 1 /\ maxMovements st = (100 # 1)%Q /\
     config st = Some conf /\ fobj st = None /\
     conf !! "maxArea" = Some (maxArea st) /\
     conf !! "sadThreshold" = Some (sadThreshold st) /\
     conf !! "vMin" = Some (vmin st) /\ conf !! "vMax" = Some (vmax st)) /\
  (~ Forall (fun k => is_Some (conf !! k)) init_keys ->
   init rows cols conf = Raise KeyError).
Proof.
  unfold init_keys, init, conf_get. rewrite !Forall_cons, Forall_nil.
  split.
  - intros ([v1 ->] & [v2 ->] & [v3 ->] & [v4 ->] & [v5 ->] & [v6 ->] & [v7 ->] & _).
    cbn. eexists. by repeat split.
  - intros Hmiss.
    repeat match goal with
           | |- context [conf !! ?k] =>
               destruct (conf !! k) eqn:?; cbn; [|done]
           end.
    exfalso. apply Hmiss. by repeat split.
Qed.

(** ** Instances of the further properties *)

Module MoreConcrete.
Import Merger Examples MoreExamples MergerMore NpMore.

Lemma separate_rectangle_appended_witness :
  intersects 30 40 [mkRect 10 10 1 1; mkRect 20 10 2 2] (mkRect 15 20 1 1)
  = Ok ([mkRect 10 10 1 1; mkRect 20 10 2 2] ++ [mkRect 15 20 1 1]).
Proof.
  apply (separate_rectangle_appended 30 40).
  - unfold well_formed. simpl. lia.
  - repeat apply Forall_cons_2; try apply Forall_nil_2;
      (split; [unfold well_formed; simpl; lia
              | unfold clear_of, extend; simpl; lia]).
Defined.

Lemma separate_contours_unchanged_witness :
  removeIntersections id 30 40 40 scattered = Ok (map id scattered).
Proof.
  apply (separate_contours_unchanged id 30 40 40 scattered).
  - repeat apply Forall_cons_2; try apply Forall_nil_2;
      (split; [unfold well_formed; simpl; lia | unfold area; simpl; lia]).
  - simpl. repeat split;
      repeat apply Forall_cons_2; try apply Forall_nil_2;
      unfold clear_of, extend; simpl; lia.
Defined.

Lemma joins_is_span_test_witness :
  joins 30 40 inner beside =
  (Z.max (rx inner + rw inner) (x2nn 40 beside) - Z.min (rx inner) (x1nn beside)
     <=? rw inner + rw beside + 2 * extend) &&
  (Z.max (ry inner + rh inner) (y2nn 30 beside) - Z.min (ry inner) (y1nn beside)
     <=? rh inner + rh beside + 2 * extend).
Proof. apply (joins_is_span_test 30 40 inner beside); simpl; lia. Defined.

Lemma border_widens_reach_witness :
  joins 30 40 five_right at_border = true /\
  joins 30 40 five_below at_border = true /\
  joins 30 40 (mkRect 16 10 1 1) (mkRect 10 10 1 1) = false.
Proof.
  split; [|split].
  - apply (proj1 (border_widens_reach 30 40 five_right at_border
                    ltac:(unfold well_formed; simpl; lia)
                    ltac:(unfold well_formed; simpl; lia)));
      unfold five_right, at_border, y1nn, y2nn, extend; simpl; lia.
  - apply (proj2 (border_widens_reach 30 40 five_below at_border
                    ltac:(unfold well_formed; simpl; lia)
                    ltac:(unfold well_formed; simpl; lia)));
      unfold five_below, at_border, x1nn, x2nn, extend; simpl; lia.
  - reflexivity.
Defined.

Lemma intersects_only_grows_witness :
  Forall (fun r => r = beside \/ exists o, o ∈ [far; inner] /\ contained o r)
         [far; union_box inner beside].
Proof.
  apply (intersects_only_grows 30 40 [far; inner] [far; union_box inner beside] beside).
  reflexivity.
Defined.

Lemma merged_inside_grid_witness :
  exists out : list Rect,
    removeIntersections id 30 40 40 [inner; beside; far] = Ok out /\
    Forall (fun r => well_formed r /\ in_grid 30 40 r) out.
Proof.
  apply (merged_inside_grid id 30 40 40 [inner; beside; far]).
  repeat apply Forall_cons_2; try apply Forall_nil_2;
    (split; [unfold well_formed; simpl; lia | unfold in_grid; simpl; lia]).
Defined.

Lemma first_frame_calibrates_witness :
  out_calls (analyse cell_boxes id false 1 three_cells fresh) = [SetupSizes 4 (4 - 1)] /\
  started (out_state (analyse cell_boxes id false 1 three_cells fresh)) = true /\
  maxMovements (out_state (analyse cell_boxes id false 1 three_cells fresh))
  = movement_cap fresh.
Proof.
  apply (first_frame_calibrates cell_boxes id false 1 three_cells fresh); reflexivity.
Defined.

Lemma calibrated_stays_calibrated_witness :
  started (out_state (analyse cell_boxes id false 8 lone_cell_90 active)) = true /\
  maxMovements (out_state (analyse cell_boxes id false 8 lone_cell_90 active))
  = maxMovements active /\
  (out_calls (analyse cell_boxes id false 8 lone_cell_90 active) = [] \/
   exists pts,
     out_calls (analyse cell_boxes id false 8 lone_cell_90 active)
     = [UpdateTracks 8 pts]).
Proof.
  apply (calibrated_stays_calibrated cell_boxes id false 8 lone_cell_90 active).
  reflexivity.
Defined.

Lemma debug_frames_recorded_witness :
  fobj (out_state (analyse cell_boxes id false 8 lone_cell_90 recording))
  = Some ([lone_cell_10] ++ [lone_cell_90]) /\
  fobj (out_state (analyse cell_boxes id true 8 lone_cell_90 debugging))
  = Some ([] ++ [lone_cell_90]) /\
  fobj (out_state (analyse cell_boxes id true 8 lone_cell_90 active)) = fobj active.
Proof.
  split; [|split].
  - apply (proj1 (debug_frames_recorded cell_boxes id false 8 lone_cell_90 recording));
      [reflexivity | discriminate].
  - apply (proj1 (debug_frames_recorded cell_boxes id true 8 lone_cell_90 debugging));
      reflexivity.
  - apply (proj2 (debug_frames_recorded cell_boxes id true 8 lone_cell_90 active)).
    reflexivity.
Defined.

Lemma sink_failure_loses_one_frame_witness :
  out_calls (analyse cell_boxes id true 9 lone_cell_90
               (out_state (analyse cell_boxes id false 8 lone_cell_10 debugging)))
  = out_calls (analyse cell_boxes id true 9 lone_cell_90 debugging) /\
  out_raised (analyse cell_boxes id true 9 lone_cell_90
                (out_state (analyse cell_boxes id false 8 lone_cell_10 debugging)))
  = out_raised (analyse cell_boxes id true 9 lone_cell_90 debugging).
Proof.
  apply (sink_failure_loses_one_frame cell_boxes id true 8 lone_cell_10 9 lone_cell_90
           debugging); reflexivity.
Defined.

Lemma guard_is_strict_witness :
  (regions cell_boxes id calibrated two_cells = Ok None <->
   rows calibrated * cols calibrated
   < 8 * Np.count_nonzero (has_movement calibrated two_cells)) /\
  Np.count_nonzero (has_movement calibrated two_cells) = 2 /\
  rows calibrated * cols calibrated = 16.
Proof.
  split; [|split; vm_compute; reflexivity].
  apply (guard_is_strict cell_boxes id calibrated two_cells). reflexivity.
Defined.

Lemma emitted_in_order_witness :
  sublist (map fst [(mkRect 5 5 3 1, (Np.Fin (7 # 3), Np.Fin (1 # 3)))])
          [mkRect 5 5 3 1].
Proof.
  apply (emitted_in_order cell_boxes id active rough_pair
           [(mkRect 5 5 3 1, (Np.Fin (7 # 3), Np.Fin (1 # 3)))] [mkRect 5 5 3 1]);
    vm_compute; reflexivity.
Defined.

Lemma ordinary_frame_delivered_witness :
  exists pts,
    out_calls (analyse cell_boxes id false 8 lone_cell_10 active)
    = [UpdateTracks 8 pts] /\
    out_raised (analyse cell_boxes id false 8 lone_cell_10 active) = None.
Proof.
  apply (ordinary_frame_delivered cell_boxes id false 8 lone_cell_10 active).
  - reflexivity.
  - discriminate.
  - split; [reflexivity|]. repeat constructor.
  - assert (cell_boxes (Np.to_mask (has_movement active lone_cell_10)) = [mkRect 20 20 1 1])
      as -> by (vm_compute; reflexivity).
    repeat constructor; simpl; lia.
  - vm_compute. reflexivity.
Defined.

Lemma mask_blind_to_sad_witness :
  has_movement no_threshold lone_cell_90 = has_movement active lone_cell_10.
Proof.
  apply (mask_blind_to_sad active no_threshold lone_cell_10 lone_cell_90);
    vm_compute; reflexivity.
Defined.

Lemma magnitude_wraps_witness :
  cell_mag (mkBlock 3 (-4) 80) = 7 /\
  cell_mag fast_block <= 0 /\ moving active fast_block = false.
Proof.
  split.
  - apply (proj1 (magnitude_wraps active (mkBlock 3 (-4) 80)
                    ltac:(simpl; lia) ltac:(simpl; lia))).
    simpl. lia.
  - destruct (proj2 (magnitude_wraps active fast_block
                       ltac:(simpl; lia) ltac:(simpl; lia))) as [H1 H2].
    + simpl. lia.
    + split; [exact H1 | apply H2; simpl; lia].
Defined.

Lemma region_cells_count_witness :
  length (cells_of flat_pair (mkRect 5 5 3 1)) = Z.to_nat (3 * 1) /\
  exists v qx qy,
    Np.var (map sad (cells_of flat_pair (mkRect 5 5 3 1))) = Np.Fin v /\
    Np.mean (map mx (cells_of flat_pair (mkRect 5 5 3 1))) = Np.Fin qx /\
    Np.mean (map my (cells_of flat_pair (mkRect 5 5 3 1))) = Np.Fin qy.
Proof.
  apply (region_cells_count 30 40 flat_pair (mkRect 5 5 3 1)).
  - split; [reflexivity|]. repeat constructor.
  - unfold in_grid. simpl. lia.
  - unfold well_formed. simpl. lia.
Defined.

Lemma vmin_beyond_vmax_silences_witness :
  vmin (set_vMin 50 active) = Z.max 50 1 /\
  vmax (set_vMin 50 active) = vmax active /\
  Np.count_nonzero (has_movement (set_vMin 50 active) lone_cell_90) = 0.
Proof.
  apply (vmin_beyond_vmax_silences 50 active lone_cell_90). simpl. lia.
Defined.

Lemma sadThreshold_only_in_variance_test_witness :
  regions cell_boxes id (set_sadThreshold 5 active) lone_cell_10
  = Ok (Some [(mkRect 20 20 1 1, (Np.of_int (-2), Np.of_int (-2)))]).
Proof.
  apply (sadThreshold_only_in_variance_test cell_boxes id 5 active lone_cell_10
           [(mkRect 20 20 1 1, (Np.of_int (-2), Np.of_int (-2)))] [mkRect 20 20 1 1]).
  - vm_compute. reflexivity.
  - vm_compute. reflexivity.
  - repeat constructor.
Defined.

Lemma accepted_updates_witness :
  threshold_of SetVMax (run_setter SetVMax 50 active) = 50 /\
  config (run_setter SetVMax 50 active)
  = (fun conf => <[key_of SetVMax := 50]> conf) <$> config active.
Proof. apply (accepted_updates SetVMax 50 active). simpl. lia. Defined.

Lemma setters_touch_own_field_witness :
  threshold_of SetVMin (run_setter SetVMax 50 active) = threshold_of SetVMin active /\
  threshold_of SetMaxArea (run_setter SetVMin 0 active) = threshold_of SetMaxArea active.
Proof.
  split.
  - apply (proj1 (setters_touch_own_field SetVMax 50 active)). discriminate.
  - apply (proj1 (setters_touch_own_field SetVMin 0 active)). discriminate.
Defined.

Lemma setters_keep_order_witness :
  vmin (set_vMax 1 active) < vmax (set_vMax 1 active) /\
  minArea (set_maxArea 90 active) < maxArea (set_maxArea 90 active) /\
  0 <= sadThreshold (set_sadThreshold 70000 active) <= 16383.
Proof.
  destruct (setters_keep_order 1 active) as (H1 & _).
  destruct (setters_keep_order 90 active) as (_ & H2 & _).
  destruct (setters_keep_order 70000 active) as (_ & _ & H3 & _).
  split; [apply H1; simpl; lia|]. split; [apply H2; simpl; lia | apply H3; simpl; lia].
Defined.

Lemma init_needs_keys_witness :
  (exists st,
     init 30 40 full_conf = Ok st /\
     started st = false /\ minArea st = 1 /\ maxMovements st = (100 # 1)%Q /\
     config st = Some full_conf /\ fobj st = None /\
     full_conf !! "maxArea" = Some (maxArea st) /\
     full_conf !! "sadThreshold" = Some (sadThreshold st) /\
     full_conf !! "vMin" = Some (vmin st) /\ full_conf !! "vMax" = Some (vmax st)) /\
  init 30 40 short_conf = Raise KeyError.
Proof.
  split.
  - apply (proj1 (init_needs_keys 30 40 full_conf)).
    unfold init_keys. repeat apply Forall_cons_2; try apply Forall_nil_2;
      (eexists; vm_compute; reflexivity).
  - apply (proj2 (init_needs_keys 30 40 short_conf)).
    unfold init_keys. rewrite !Forall_cons.
    intros (_ & _ & _ & [v Hv] & _). vm_compute in Hv. discriminate Hv.
Defined.

End MoreConcrete.
